(** * Dependency Analysis Service: a shallow embedding of
      [dependency-analysis-service/main.py] and the properties of its
      tree parser, static declaration scanner, match merger, archive
      fetcher and job store.

    Conventions of the embedding.
    - A Python [str] is a [string]; every character stands for one code
      point below 256 (Latin-1), on which [str.lower], [str.isspace]
      and the [re] module's [\s] and [IGNORECASE] are written out.
    - [Optional[str]] is [option string]; Python truthiness of such a
      value ([if match.parent_dependency]) is [truthy].
    - A [dict] whose iteration order is observed ([list(d.values())])
      is an association list in insertion order.
    - Calls that leave the process (HTTP, zip extraction, the file
      system walk, [subprocess.run], the clock, [uuid4]) are answered
      by an explicit [world] record; the code between the calls is
      translated as it is written. *)

From Stdlib Require Import Ascii String List Bool Arith ZArith Lia QArith.
From Stdlib Require Import DecimalString.
From stdpp Require Import base list strings gmap.

Import ListNotations.
#[local] Open Scope string_scope.
#[local] Open Scope nat_scope.
#[local] Open Scope list_scope.

(** ** Python string operations used by the service *)

Module Py.

Definition code (c : ascii) : nat := nat_of_ascii c.

(** [str.isspace] on one code point below 256; also what [\s]
    matches in a [str] pattern. *)
Definition isspace (c : ascii) : bool :=
  let n := code c in
  ((9 <=? n) && (n <=? 13)) || ((28 <=? n) && (n <=? 32))
  || (n =? 133) || (n =? 160).

(** [str.lower] on one code point below 256. *)
Definition lower_char (c : ascii) : ascii :=
  let n := code c in
  if ((65 <=? n) && (n <=? 90))
     || ((192 <=? n) && (n <=? 222) && negb (n =? 215))
  then ascii_of_nat (n + 32) else c.

Fixpoint lower (s : string) : string :=
  match s with
  | EmptyString => EmptyString
  | String c s' => String (lower_char c) (lower s')
  end.

(** [s.lstrip()] *)
Fixpoint lstrip (s : string) : string :=
  match s with
  | EmptyString => EmptyString
  | String c s' => if isspace c then lstrip s' else s
  end.

(** [s.rstrip()]: a character is dropped when it is white space and
    everything after it has been dropped. *)
Fixpoint rstrip (s : string) : string :=
  match s with
  | EmptyString => EmptyString
  | String c s' =>
      match rstrip s' with
      | EmptyString => if isspace c then EmptyString else String c EmptyString
      | r => String c r
      end
  end.

(** [s.strip()] *)
Definition strip (s : string) : string := rstrip (lstrip s).

(** [s.startswith(p)] *)
Definition startswith (p s : string) : bool := String.prefix p s.

(** [needle in hay] *)
Fixpoint contains (needle hay : string) : bool :=
  String.prefix needle hay
  || match hay with
     | EmptyString => false
     | String _ hay' => contains needle hay'
     end.

(** [s.split(sep)] for a one-character separator: never empty. *)
Fixpoint split (sep : ascii) (s : string) : list string :=
  match s with
  | EmptyString => [EmptyString]
  | String c s' =>
      if Ascii.eqb c sep then EmptyString :: split sep s'
      else match split sep s' with
           | [] => [String c EmptyString]
           | w :: ws => String c w :: ws
           end
  end.

(** [s.replace(a, b)] for one-character [a] and [b]. *)
Fixpoint replace (a b : ascii) (s : string) : string :=
  match s with
  | EmptyString => EmptyString
  | String c s' => String (if Ascii.eqb c a then b else c) (replace a b s')
  end.

(** [str(n)] for a natural number. *)
Definition str_of_nat (n : nat) : string :=
  NilZero.string_of_uint (Nat.to_uint n).

(** [str(n)] for an integer. *)
Definition str_of_Z (z : Z) : string :=
  match z with
  | Z0 => "0"
  | Zpos p => str_of_nat (Pos.to_nat p)
  | Zneg p => "-" +:+ str_of_nat (Pos.to_nat p)
  end.

(** Truthiness of an [Optional[str]]: [None] and the empty string are false. *)
Definition truthy (o : option string) : bool :=
  match o with
  | Some s => negb (String.eqb s EmptyString)
  | None => false
  end.

End Py.

(** ** Data model *)

(** [class DependencyMatch(BaseModel)] *)
Record DependencyMatch : Type := mkMatch {
  file_path : string;
  current_version : string;
  parent_dependency : option string;
  parent_version : option string;
  dependency_path : list string;
  line_context : string
}.

(** ** Match merger: [DependencyAnalyzer.merge_duplicate_matches]

    The method writes the merged fields into the object it stored first
    under a key, which is an object of its input list.  It never writes
    [file_path] or [current_version], reads every later object once and
    returns the stored objects, so the returned sequence is a function
    of the field values of the input sequence; records are values here
    and [merge_into] returns the written record. *)

Module Merger.

(** The dict [unique_matches], in insertion order. *)
Definition dict : Type := list (string * DependencyMatch).

(** [key = f"{match.file_path}_{match.current_version}"] *)
Definition key_of (m : DependencyMatch) : string :=
  file_path m +:+ "_" +:+ current_version m.

(** [unique_matches.get(key)] / [key in unique_matches] *)
Fixpoint dict_get (k : string) (d : dict) : option DependencyMatch :=
  match d with
  | [] => None
  | (k', e) :: d' => if String.eqb k k' then Some e else dict_get k d'
  end.

(** Writing the object stored under an existing key; the position of
    the key in the iteration order does not change. *)
Fixpoint dict_set (k : string) (v : DependencyMatch) (d : dict) : dict :=
  match d with
  | [] => []
  | (k', e) :: d' =>
      if String.eqb k k' then (k', v) :: d' else (k', e) :: dict_set k v d'
  end.

(** The three conditional field writes of the [else] branch, applied
    to [existing] with the later duplicate [m]. *)
Definition merge_into (existing m : DependencyMatch) : DependencyMatch :=
  let e1 :=
    if Py.truthy (parent_dependency m)
       && negb (Py.truthy (parent_dependency existing))
    then mkMatch (file_path existing) (current_version existing)
           (parent_dependency m) (parent_version existing)
           (dependency_path existing) (line_context existing)
    else existing in
  let e2 :=
    if Py.truthy (parent_version m) && negb (Py.truthy (parent_version e1))
    then mkMatch (file_path e1) (current_version e1)
           (parent_dependency e1) (parent_version m)
           (dependency_path e1) (line_context e1)
    else e1 in
  if length (dependency_path e2) <? length (dependency_path m)
  then mkMatch (file_path e2) (current_version e2)
         (parent_dependency e2) (parent_version e2)
         (dependency_path m) (line_context e2)
  else e2.

(** One iteration of [for match in matches]. *)
Definition merge_step (d : dict) (m : DependencyMatch) : dict :=
  let key := key_of m in
  match dict_get key d with
  | None => d ++ [(key, m)]
  | Some existing => dict_set key (merge_into existing m) d
  end.

Definition merge_loop (matches : list DependencyMatch) (d : dict) : dict :=
  fold_left merge_step matches d.

(** [return list(unique_matches.values())] *)
Definition merge_duplicate_matches (matches : list DependencyMatch)
  : list DependencyMatch :=
  map snd (merge_loop matches []).

End Merger.

(** ** The fragment of Python's [re] the service uses

    Backtracking matcher for patterns built from one-character atoms,
    greedy [*] and [+] over an atom, concatenation and capturing
    groups.  The groups of the service's patterns are not nested and
    each takes part in every match, so [match.groups()] is the list of
    captured texts in the order the groups close. *)

Module Re.

(** A member of a character class. *)
Inductive item : Type :=
| IChar (c : ascii)
| ISpace.                               (* \s *)

Inductive atom : Type :=
| Lit (c : ascii)
| Class (negated : bool) (items : list item)
| Space.                                (* \s *)

Inductive regex : Type :=
| Empty
| Atom (a : atom)
| Star (a : atom)                       (* a*  greedy *)
| Plus (a : atom)                       (* a+  greedy *)
| Seq (r1 r2 : regex)
| Group (r : regex).

(** Equality of two code points, under [re.IGNORECASE] when [icase]. *)
Definition char_eq (icase : bool) (c d : ascii) : bool :=
  if icase then Ascii.eqb (Py.lower_char c) (Py.lower_char d)
  else Ascii.eqb c d.

Definition item_ok (icase : bool) (i : item) (d : ascii) : bool :=
  match i with
  | IChar c => char_eq icase c d
  | ISpace => Py.isspace d
  end.

Definition atom_ok (icase : bool) (a : atom) (d : ascii) : bool :=
  match a with
  | Lit c => char_eq icase c d
  | Class negated items =>
      xorb negated (existsb (fun i => item_ok icase i d) items)
  | Space => Py.isspace d
  end.

(** Greedy repetition: the longest run first, then shorter ones. *)
Fixpoint star {R : Type} (p : ascii -> bool) (s : string)
         (k : string -> option R) : option R :=
  match s with
  | EmptyString => k s
  | String c s' =>
      if p c
      then match star p s' k with
           | Some r => Some r
           | None => k s
           end
      else k s
  end.

(** The text consumed between the input [s] and its suffix [s']. *)
Definition consumed (s s' : string) : string :=
  String.substring 0 (String.length s - String.length s') s.

(** [run icase r s caps k]: match [r] at the head of [s]; [k] receives
    the rest of the input and the groups closed so far. *)
Fixpoint run (icase : bool) (r : regex) (s : string) (caps : list string)
         (k : string -> list string -> option (list string))
  : option (list string) :=
  match r with
  | Empty => k s caps
  | Atom a =>
      match s with
      | String c s' => if atom_ok icase a c then k s' caps else None
      | EmptyString => None
      end
  | Star a => star (atom_ok icase a) s (fun s' => k s' caps)
  | Plus a =>
      match s with
      | String c s' =>
          if atom_ok icase a c
          then star (atom_ok icase a) s' (fun s'' => k s'' caps)
          else None
      | EmptyString => None
      end
  | Seq r1 r2 =>
      run icase r1 s caps (fun s' caps' => run icase r2 s' caps' k)
  | Group r1 =>
      run icase r1 s caps (fun s' caps' => k s' (caps' ++ [consumed s s']))
  end.

(** [re.match(r, s)]: the groups of the match at position 0. *)
Definition match_at (icase : bool) (r : regex) (s : string)
  : option (list string) :=
  run icase r s [] (fun _ caps => Some caps).

(** [re.search(r, s)]: the groups of the leftmost match. *)
Fixpoint search (icase : bool) (r : regex) (s : string)
  : option (list string) :=
  match match_at icase r s with
  | Some caps => Some caps
  | None =>
      match s with
      | EmptyString => None
      | String _ s' => search icase r s'
      end
  end.

(** [re.sub(a+, '', s)] for an atom [a]: every run of characters the
    atom accepts is replaced by the empty string. *)
Fixpoint delete_runs (a : atom) (s : string) : string :=
  match s with
  | EmptyString => EmptyString
  | String c s' =>
      if atom_ok false a c then delete_runs a s'
      else String c (delete_runs a s')
  end.

(** [re.escape(text)] used as a pattern: [text] matched literally. *)
Fixpoint escape (text : string) : regex :=
  match text with
  | EmptyString => Empty
  | String c text' => Seq (Atom (Lit c)) (escape text')
  end.

(** Concatenation of a list of patterns. *)
Definition seq (rs : list regex) : regex := fold_right Seq Empty rs.

End Re.

(** ** Tree parser *)

Module TreeParser.

(** [r'[+\-\\\|\s]+'] *)
Definition tree_chars : Re.atom :=
  Re.Class false
    [Re.IChar "+"; Re.IChar "-"; Re.IChar "\"; Re.IChar "|"; Re.ISpace]%char.

Definition not_colon : Re.atom := Re.Class true [Re.IChar ":"%char].

(** [dep_pattern = r'([^:]+):([^:]+):([^:\s]+)'] *)
Definition dep_pattern : Re.regex :=
  Re.seq
    [Re.Group (Re.Plus not_colon); Re.Atom (Re.Lit ":");
     Re.Group (Re.Plus not_colon); Re.Atom (Re.Lit ":");
     Re.Group (Re.Plus (Re.Class true [Re.IChar ":"%char; Re.ISpace]))].

(** [current_path[-1] if current_path else None] *)
Definition last_of (current_path : list string) : option string :=
  last current_path.

(** [DependencyAnalyzer.extract_dependency_info_from_line] *)
Definition extract_dependency_info_from_line
           (line dependency_name configuration : string)
           (current_path : list string) (repo_dir : string)
  : option DependencyMatch :=
  let clean_line := Re.delete_runs tree_chars line in
  match Re.search false dep_pattern clean_line with
  | Some [group_id; artifact_id; version] =>
      let full_name := group_id +:+ ":" +:+ artifact_id in
      if Py.contains (Py.lower dependency_name) (Py.lower full_name)
         || Py.contains (Py.lower dependency_name) (Py.lower artifact_id)
      then
        let indent_level :=
          String.length line - String.length (Py.lstrip line) in
        let transitive :=
          (0 <? indent_level) && negb (length current_path =? 0) in
        Some (mkMatch
                ("gradle_tree_" +:+ configuration)
                version
                (if transitive then last_of current_path else None)
                None
                (if transitive then current_path ++ [full_name]
                 else [full_name])
                (Py.strip line))
      else None
  | _ => None
  end.

(** One iteration of [for line_num, line in enumerate(lines)];
    [current_path] is the loop's local of that name, which no
    iteration assigns. *)
Definition parse_line (dependency_name configuration repo_dir : string)
           (current_path : list string)
           (matches : list DependencyMatch) (line : string)
  : list DependencyMatch :=
  if String.eqb (Py.strip line) EmptyString || Py.startswith "----" line
  then matches
  else if Py.contains (Py.lower dependency_name) (Py.lower line)
  then match extract_dependency_info_from_line
               line dependency_name configuration current_path repo_dir with
       | Some m => matches ++ [m]
       | None => matches
       end
  else matches.

(** [DependencyAnalyzer.parse_dependency_tree] *)
Definition parse_dependency_tree
           (tree_output dependency_name configuration repo_dir : string)
  : list DependencyMatch :=
  let lines := Py.split "010" tree_output in
  let current_path : list string := [] in
  fold_left (parse_line dependency_name configuration repo_dir current_path)
            lines [].

End TreeParser.

(** ** Static declaration scanner *)

Module StaticScanner.

Definition quote : Re.atom := Re.Class false [Re.IChar "'"; Re.IChar "034"]%char.
Definition not_quote : Re.atom := Re.Class true [Re.IChar "'"; Re.IChar "034"]%char.

(** The common tail of the first two patterns: optional white space,
    [=], optional white space, a quote character (single or double),
    one group of one or more non-quote characters, a quote character. *)
Definition assignment : Re.regex :=
  Re.seq [Re.Star Re.Space; Re.Atom (Re.Lit "="); Re.Star Re.Space;
          Re.Atom quote; Re.Group (Re.Plus not_quote); Re.Atom quote].

(** The list [version_patterns] for a target name. *)
Definition version_patterns (dependency_name : string) : list Re.regex :=
  [ Re.Seq (Re.escape dependency_name)
      (Re.Seq (Re.escape "Version") assignment);
    Re.Seq (Re.escape dependency_name) assignment;
    Re.seq
      [Re.Group (Re.Seq (Re.escape dependency_name)
                        (Re.Star TreeParser.not_colon));
       Re.Atom (Re.Lit ":");
       Re.Group (Re.Star TreeParser.not_colon);
       Re.Atom (Re.Lit ":");
       Re.Group (Re.Plus (Re.Class true
                            [Re.ISpace; Re.IChar "'"; Re.IChar "034"]%char))] ].

(** The body of [for pattern in version_patterns] for one pattern:
    the matches it appends. *)
Definition pattern_matches (relative_path dependency_name : string)
           (line_num : nat) (line : string) (pattern : Re.regex)
  : list DependencyMatch :=
  match Re.search true pattern line with
  | Some groups =>
      let context :=
        "Line " +:+ Py.str_of_nat line_num +:+ ": " +:+ Py.strip line in
      match groups with
      | [version] =>
          [mkMatch relative_path version None None
                   [dependency_name +:+ ":" +:+ version] context]
      | [group; artifact; version] =>
          [mkMatch relative_path version None None
                   [group +:+ ":" +:+ artifact] context]
      | _ => []
      end
  | None => []
  end.

(** The matches one line contributes: every pattern of the list is
    applied, in order. *)
Definition line_matches (relative_path dependency_name : string)
           (line_num : nat) (line : string) : list DependencyMatch :=
  fold_left
    (fun matches pattern =>
       matches ++ pattern_matches relative_path dependency_name
                                  line_num line pattern)
    (version_patterns dependency_name) [].

(** [for line_num, line in enumerate(lines, 1)] *)
Fixpoint scan_lines (relative_path dependency_name : string)
         (line_num : nat) (lines : list string) : list DependencyMatch :=
  match lines with
  | [] => []
  | line :: rest =>
      line_matches relative_path dependency_name line_num line
      ++ scan_lines relative_path dependency_name (S line_num) rest
  end.

(** The matches of one descriptor file whose text has been read. *)
Definition scan_content (relative_path dependency_name content : string)
  : list DependencyMatch :=
  scan_lines relative_path dependency_name 1 (Py.split "010" content).

End StaticScanner.

(** ** The world outside the process *)

(** [requests.get(url, headers=headers, timeout=60)]: a response with
    its status code, or an exception (connection error, timeout). *)
Inductive http_outcome : Type :=
| Response (status_code : Z)
| RequestException (msg : string).

(** [zipfile.ZipFile(...)] followed by [extractall(repo_dir)]:
    [BadZipFile] is raised on opening the archive, before anything is
    written; [ExtractError] is raised by [extractall] once [repo_dir]
    exists. *)
Inductive extract_outcome : Type :=
| Extracted
| BadZipFile (msg : string)
| ExtractError (msg : string).

(** The listing and moving of the nested folder's items. *)
Inductive hoist_outcome : Type :=
| Hoisted
| HoistError (msg : string).

(** [subprocess.run(..., capture_output=True, text=True, timeout=120)] *)
Inductive run_outcome : Type :=
| Completed (returncode : Z) (stdout stderr : string)
| TimeoutExpired
| FileNotFoundError
| OtherException (msg : string).

Record world : Type := mkWorld {
  uuid4 : string;                                   (* str(uuid.uuid4()) *)
  requests_get : string -> option string -> http_outcome;
  zip_extract : extract_outcome;
  hoist : hoist_outcome;
  gradle_files_in : string -> list string;          (* the os.walk scan *)
  read_text : string -> option string;              (* open(...).read() *)
  relpath : string -> string -> string;             (* os.path.relpath *)
  path_exists : string -> bool;                     (* os.path.exists *)
  subprocess_run : list string -> string -> run_outcome;
  time_start : Q;                                   (* first time.time() *)
  time_end : Q;                                     (* second time.time() *)
  rmtree_error : string -> option string            (* shutil.rmtree raising,
                                                       in cleanup_repository *)
}.

(** The scratch directories that exist under the work directory. *)
Abbreviation scratch := (gset string).

(** A call that returns a value or raises an exception with a message. *)
Inductive outcome (A : Type) : Type :=
| Return (a : A)
| Raise (msg : string).
Arguments Return {A} a.
Arguments Raise {A} msg.

Module Path.

Definition endswith (p s : string) : bool :=
  String.prefix (String.rev p) (String.rev s).

(** [os.path.join(a, b)] on POSIX. *)
Definition join (a b : string) : string :=
  if Py.startswith "/" b then b
  else if String.eqb a EmptyString || endswith "/" a then a +:+ b
  else a +:+ "/" +:+ b.

End Path.

(** ** Archive fetcher: [DependencyAnalyzer.clone_repository] *)

Module Fetcher.

(** [os.path.join(self.work_dir, f"repo_{repository.replace('/', '_')}_{job_id}")]
    with [job_id = str(uuid.uuid4())[:8]]. *)
Definition repo_dir_of (w : world) (work_dir repository : string) : string :=
  let job_id := String.substring 0 8 (uuid4 w) in
  Path.join work_dir
    ("repo_" +:+ Py.replace "/" "_" repository +:+ "_" +:+ job_id).

Definition zip_url (repository branch : string) : string :=
  "https://api.github.com/repos/" +:+ repository +:+ "/zipball/" +:+ branch.

(** The [Authorization] header, set when [github_token] is truthy. *)
Definition headers_of (github_token : option string) : option string :=
  if Py.truthy github_token
  then (fun t => "token " +:+ t) <$> github_token
  else None.

(** The body of the [try] block. *)
Definition clone_try (w : world) (work_dir repository : string)
           (github_token : option string) (fs : scratch)
  : scratch * outcome string :=
  let repo_dir := repo_dir_of w work_dir repository in
  let headers := headers_of github_token in
  match requests_get w (zip_url repository "main") headers with
  | RequestException e => (fs, Raise e)
  | Response code_main =>
      let response :=
        if negb (code_main =? 200)%Z
        then requests_get w (zip_url repository "master") headers
        else Response code_main in
      match response with
      | RequestException e => (fs, Raise e)
      | Response status_code =>
          if (status_code =? 200)%Z then
            match zip_extract w with
            | BadZipFile e => (fs, Raise e)
            | ExtractError e => ({[repo_dir]} ∪ fs, Raise e)
            | Extracted =>
                match hoist w with
                | HoistError e => ({[repo_dir]} ∪ fs, Raise e)
                | Hoisted => ({[repo_dir]} ∪ fs, Return repo_dir)
                end
            end
          else (fs, Raise ("Failed to download repository: HTTP "
                           +:+ Py.str_of_Z status_code))
      end
  end.

(** [shutil.rmtree(p)] guarded by [os.path.exists(p)]. *)
Definition rmtree_if_exists (p : string) (fs : scratch) : scratch :=
  if decide (p ∈ fs) then fs ∖ {[p]} else fs.

(** The whole method: the [except Exception] handler removes the
    scratch directory and raises the exception again. *)
Definition clone_repository (w : world) (work_dir repository : string)
           (github_token : option string) (fs : scratch)
  : scratch * outcome string :=
  match clone_try w work_dir repository github_token fs with
  | (fs', Raise e) =>
      (rmtree_if_exists (repo_dir_of w work_dir repository) fs', Raise e)
  | (fs', Return repo_dir) => (fs', Return repo_dir)
  end.

End Fetcher.

(** ** Build-tool invoker and the analysis of one repository *)

Module Analyzer.

Definition configurations : list string :=
  ["compileClasspath"; "runtimeClasspath"; "testCompileClasspath"].

(** [DependencyAnalyzer.analyze_gradle_files_directly]: a file whose
    reading raises is skipped. *)
Definition analyze_gradle_files_directly (w : world)
           (gradle_files : list string) (dependency_name repo_dir : string)
  : list DependencyMatch :=
  fold_left
    (fun matches gradle_file =>
       match read_text w gradle_file with
       | Some content =>
           matches ++ StaticScanner.scan_content
                        (relpath w gradle_file repo_dir)
                        dependency_name content
       | None => matches
       end)
    gradle_files [].

(** The command line: the project's wrapper when it exists. *)
Definition gradle_cmd (w : world) (repo_dir : string) : list string :=
  let gradlew_path := Path.join repo_dir "gradlew" in
  if path_exists w gradlew_path then [gradlew_path] else ["gradle"].

(** The body of [for config in configurations]: what one
    configuration appends to [matches]. *)
Definition config_matches (w : world) (repo_dir dependency_name config : string)
  : list DependencyMatch :=
  match subprocess_run w
          (gradle_cmd w repo_dir ++ ["dependencies"; "--configuration"; config])
          repo_dir with
  | Completed returncode stdout _ =>
      if (returncode =? 0)%Z
      then TreeParser.parse_dependency_tree stdout dependency_name config repo_dir
      else []
  | TimeoutExpired => []
  | FileNotFoundError => []
  | OtherException _ => []
  end.

(** The [matches] list after the loop over [configs]. *)
Definition tree_matches (w : world) (repo_dir dependency_name : string)
           (configs : list string) : list DependencyMatch :=
  fold_left
    (fun matches config =>
       matches ++ config_matches w repo_dir dependency_name config)
    configs [].

(** [DependencyAnalyzer.analyze_gradle_dependencies] *)
Definition analyze_gradle_dependencies (w : world) (repo_dir : string)
           (gradle_files : list string) (dependency_name : string)
  : list DependencyMatch :=
  let matches := tree_matches w repo_dir dependency_name configurations in
  let file_matches :=
    analyze_gradle_files_directly w gradle_files dependency_name repo_dir in
  Merger.merge_duplicate_matches (matches ++ file_matches).

(** [DependencyAnalyzer.cleanup_repository]: the directory is removed
    when it exists; a removal that raises is logged by the [except]
    clause and the directory stays. *)
Definition cleanup_repository (w : world) (repo_dir : string) (fs : scratch)
  : scratch :=
  if decide (repo_dir ∈ fs)
  then match rmtree_error w repo_dir with
       | None => fs ∖ {[repo_dir]}
       | Some _ => fs
       end
  else fs.

End Analyzer.

(** ** Job store and endpoints *)

Module AnalysisRequest.
Record t : Type := mk {
  repository : string;
  dependency_name : string;
  github_token : option string
}.
End AnalysisRequest.

Module AnalysisResult.
Record t : Type := mk {
  repository : string;
  dependency_name : string;
  job_id : string;
  status : string;
  gradle_files_found : list string;
  matches : list DependencyMatch;
  error : option string;
  analysis_time_seconds : option Q
}.
End AnalysisResult.

Module Jobs.

Import AnalysisResult.

(** [jobs_storage: Dict[str, AnalysisResult]] *)
Abbreviation jobs_storage := (gmap string AnalysisResult.t).

(** The state the endpoints and the background task share. *)
Record state : Type := mkState {
  jobs : jobs_storage;
  dirs : scratch
}.

(** The answer of an endpoint. *)
Inductive http_result (A : Type) : Type :=
| Ok200 (body : A)
| HTTPException (status_code : nat) (detail : string).
Arguments Ok200 {A} body.
Arguments HTTPException {A} status_code detail.

Definition work_dir : string := "/tmp/gradle_analysis".

(** [POST /analyze]; [uuid] is the value of [str(uuid.uuid4())].
    Returns the new store and the JSON object of the response. *)
Definition start_analysis (uuid : string) (request : AnalysisRequest.t)
           (store : jobs_storage)
  : jobs_storage * list (string * string) :=
  let job_id := uuid in
  let result :=
    mk (AnalysisRequest.repository request)
       (AnalysisRequest.dependency_name request)
       job_id "processing" [] [] None None in
  (<[job_id := result]> store,
   [("job_id", job_id); ("status", "processing");
    ("check_url", "/status/" +:+ job_id)]).

(** [GET /status/{job_id}] *)
Definition get_analysis_status (store : jobs_storage) (job_id : string)
  : http_result AnalysisResult.t :=
  match store !! job_id with
  | None => HTTPException 404 "Job not found"
  | Some result => Ok200 result
  end.

(** The effect of [run_analysis] on the job object [result] and on
    the scratch directories.  The file scan and the dependency
    analysis handle their own failures (configurations and files are
    skipped), so the fetch is the step whose exception reaches the
    [except] clause here. *)
Definition run_on (w : world) (result : AnalysisResult.t)
           (repository dependency_name : string)
           (github_token : option string) (fs : scratch)
  : AnalysisResult.t * scratch :=
  let start_time := time_start w in
  match Fetcher.clone_repository w work_dir repository github_token fs with
  | (fs1, Raise e) =>
      (* except Exception; repo_dir is still None in the finally *)
      (mk (AnalysisResult.repository result)
          (AnalysisResult.dependency_name result)
          (job_id result) "failed"
          (gradle_files_found result) (matches result)
          (Some e) (Some (time_end w - start_time)%Q),
       fs1)
  | (fs1, Return repo_dir) =>
      let gradle_files := gradle_files_in w repo_dir in
      let found := map (fun f => relpath w f repo_dir) gradle_files in
      if (length gradle_files =? 0)%nat then
        (* if not gradle_files: ... return *)
        (mk (AnalysisResult.repository result)
            (AnalysisResult.dependency_name result)
            (job_id result) "completed"
            found (matches result)
            (Some "No Gradle files found in repository")
            (analysis_time_seconds result),
         Analyzer.cleanup_repository w repo_dir fs1)
      else
        let ms := Analyzer.analyze_gradle_dependencies
                    w repo_dir gradle_files dependency_name in
        (mk (AnalysisResult.repository result)
            (AnalysisResult.dependency_name result)
            (job_id result) "completed"
            found ms
            (error result) (Some (time_end w - start_time)%Q),
         Analyzer.cleanup_repository w repo_dir fs1)
  end.

(** [run_analysis]: the job object is read from the store and written
    in place; an unknown [job_id] raises [KeyError] before the [try]. *)
Definition run_analysis (w : world) (job_id repository dependency_name : string)
           (github_token : option string) (st : state) : state :=
  match jobs st !! job_id with
  | None => st
  | Some result =>
      let '(result', fs') :=
        run_on w result repository dependency_name github_token (dirs st) in
      mkState (<[job_id := result']> (jobs st)) fs'
  end.

(** What can happen to the service, one request or task at a time. *)
Inductive event : Type :=
| Submit (uuid : string) (request : AnalysisRequest.t)
| Poll (job_id : string)
| Background (w : world) (job_id repository dependency_name : string)
             (github_token : option string).

Definition step (st : state) (e : event) : state :=
  match e with
  | Submit uuid request =>
      mkState (fst (start_analysis uuid request (jobs st))) (dirs st)
  | Poll _ => st
  | Background w job_id repository dependency_name github_token =>
      run_analysis w job_id repository dependency_name github_token st
  end.

Definition run_events (st : state) (es : list event) : state :=
  fold_left step es st.

End Jobs.

(** ** Vocabulary of the statements *)

Module Spec.

(** The records of [L] the merger files under the key [k], in order. *)
Definition candidates (k : string) (L : list DependencyMatch)
  : list DependencyMatch :=
  List.filter (fun m => String.eqb (Merger.key_of m) k) L.

(** The record the merger keeps for a group of candidates: the first
    is the base, the later ones are merged into it in order. *)
Definition merged_of (cs : list DependencyMatch) : option DependencyMatch :=
  match cs with
  | [] => None
  | base :: rest => Some (fold_left Merger.merge_into rest base)
  end.

(** Every entry is filed under the key of its record, and no key
    occurs twice. *)
Definition well_keyed (d : Merger.dict) : Prop :=
  NoDup (fst <$> d) /\ Forall (fun p => Merger.key_of (snd p) = fst p) d.

Definition has_parent (m : DependencyMatch) : bool :=
  Py.truthy (parent_dependency m).

Definition has_parent_version (m : DependencyMatch) : bool :=
  Py.truthy (parent_version m).

(** The archive request was answered with status 200, by the [main]
    branch or, after another status there, by [master]. *)
Definition answered_200 (w : world) (repository : string)
           (headers : option string) : Prop :=
  requests_get w (Fetcher.zip_url repository "main") headers = Response 200
  \/ exists c, c <> 200%Z /\
       requests_get w (Fetcher.zip_url repository "main") headers = Response c /\
       requests_get w (Fetcher.zip_url repository "master") headers
       = Response 200.

(** The ways a fetch fails, with the message of the exception. *)
Inductive fetch_failure (w : world) (repository : string)
          (headers : option string) : string -> Prop :=
| network_error_main e :
    requests_get w (Fetcher.zip_url repository "main") headers
    = RequestException e ->
    fetch_failure w repository headers e
| network_error_master c e :
    requests_get w (Fetcher.zip_url repository "main") headers = Response c ->
    c <> 200%Z ->
    requests_get w (Fetcher.zip_url repository "master") headers
    = RequestException e ->
    fetch_failure w repository headers e
| both_not_200 c1 c2 :
    requests_get w (Fetcher.zip_url repository "main") headers = Response c1 ->
    c1 <> 200%Z ->
    requests_get w (Fetcher.zip_url repository "master") headers = Response c2 ->
    c2 <> 200%Z ->
    fetch_failure w repository headers
      ("Failed to download repository: HTTP " +:+ Py.str_of_Z c2)
| corrupt_archive e :
    answered_200 w repository headers ->
    zip_extract w = BadZipFile e ->
    fetch_failure w repository headers e
| extraction_error e :
    answered_200 w repository headers ->
    zip_extract w = ExtractError e ->
    fetch_failure w repository headers e
| hoist_error e :
    answered_200 w repository headers ->
    zip_extract w = Extracted ->
    hoist w = HoistError e ->
    fetch_failure w repository headers e.

(** The indentation the tree parser measures on a line. *)
Definition indent_level (line : string) : nat :=
  String.length line - String.length (Py.lstrip line).

(** A record without parent fields whose path is its own name. *)
Definition rootlike (m : DependencyMatch) : Prop :=
  parent_dependency m = None /\ parent_version m = None /\
  exists full_name, dependency_path m = [full_name].

Definition unparented (m : DependencyMatch) : Prop :=
  parent_dependency m = None /\ parent_version m = None.

(** The number of capturing groups of a pattern. *)
Fixpoint groups (r : Re.regex) : nat :=
  match r with
  | Re.Empty | Re.Atom _ | Re.Star _ | Re.Plus _ => 0
  | Re.Seq r1 r2 => groups r1 + groups r2
  | Re.Group r1 => S (groups r1)
  end.

(** Whether a pattern matches somewhere in a line. *)
Definition applies (line : string) (pattern : Re.regex) : bool :=
  match Re.search true pattern line with
  | Some _ => true
  | None => false
  end.

(** What one descriptor file contributes to the static scan. *)
Definition file_matches (w : world) (name repo_dir gradle_file : string)
  : list DependencyMatch :=
  match read_text w gradle_file with
  | Some content =>
      StaticScanner.scan_content (relpath w gradle_file repo_dir) name content
  | None => []
  end.

(** The invocation of the build tool for a configuration. *)
Definition invocation (w : world) (repo_dir config : string) : run_outcome :=
  subprocess_run w
    (Analyzer.gradle_cmd w repo_dir
     ++ ["dependencies"; "--configuration"; config])
    repo_dir.

(** Whether a version string contains the separator of the key. *)
Fixpoint has_underscore (v : string) : bool :=
  match v with
  | EmptyString => false
  | String c v' => Ascii.eqb c "_" || has_underscore v'
  end.

(** The records of [L] with the file path and the version of [m]. *)
Definition same_pair (m : DependencyMatch) (L : list DependencyMatch)
  : list DependencyMatch :=
  List.filter
    (fun c => String.eqb (file_path c) (file_path m)
              && String.eqb (current_version c) (current_version m))
    L.

(** The invocation failed: non-zero exit, timeout, missing
    executable, or any other exception. *)
Definition failed (o : run_outcome) : Prop :=
  match o with
  | Completed returncode _ _ => returncode <> 0%Z
  | TimeoutExpired | FileNotFoundError | OtherException _ => True
  end.

End Spec.

(** ** Concrete inputs used below *)

Module Examples.

Definition nl : string := String "010" EmptyString.

(** A world in which nothing outside the process answers. *)
Definition quiet : world :=
  mkWorld "1b9d6bcd-bbfd-4b2d-9b5d-ab8dfbbd4bed"
          (fun _ _ => RequestException "connection refused")
          (BadZipFile "File is not a zip file")
          Hoisted
          (fun _ => [])
          (fun _ => None)
          (fun p _ => p)
          (fun _ => false)
          (fun _ _ => FileNotFoundError)
          0%Q 0%Q
          (fun _ => None).

(** Two descriptor files in the root of a repository extracted to
    [/r]: [a.gradle] and [a.gradle_b.gradle]. *)
Definition two_files : world :=
  mkWorld (uuid4 quiet) (requests_get quiet) (zip_extract quiet) (hoist quiet)
          (fun _ => ["/r/a.gradle"; "/r/a.gradle_b.gradle"])
          (fun p =>
             if String.eqb p "/r/a.gradle" then Some "dep = 'b.gradle_1'"
             else if String.eqb p "/r/a.gradle_b.gradle" then Some "dep = '1'"
             else None)
          (fun p _ => String.substring 3 (String.length p - 3) p)
          (path_exists quiet) (subprocess_run quiet)
          (time_start quiet) (time_end quiet) (rmtree_error quiet).

(** The [main] branch is missing, [master] is served, and the archive
    breaks while it is being extracted. *)
Definition broken_archive : world :=
  mkWorld (uuid4 quiet)
          (fun url _ =>
             if String.eqb url (Fetcher.zip_url "octo/demo" "main")
             then Response 404 else Response 200)
          (ExtractError "Bad CRC-32 for file 'demo-1a2b3c/build.gradle'")
          (hoist quiet) (gradle_files_in quiet) (read_text quiet)
          (relpath quiet) (path_exists quiet) (subprocess_run quiet)
          (time_start quiet) (time_end quiet) (rmtree_error quiet).

(** A repository that downloads and extracts well and holds no
    descriptor file; the clock advances by a second and a half. *)
Definition no_descriptors : world :=
  mkWorld (uuid4 quiet)
          (fun _ _ => Response 200)
          Extracted Hoisted
          (fun _ => [])
          (read_text quiet) (relpath quiet) (path_exists quiet)
          (subprocess_run quiet)
          (1700000000 # 1)%Q (3400000003 # 2)%Q (rmtree_error quiet).

(** The build tool times out on [compileClasspath], lists the target
    on [runtimeClasspath] and exits with status 1 on
    [testCompileClasspath]; [a.gradle] declares a version. *)
Definition flaky_tool : world :=
  mkWorld (uuid4 quiet) (fun _ _ => Response 200) Extracted Hoisted
          (fun _ => ["/r/a.gradle"])
          (fun p =>
             if String.eqb p "/r/a.gradle"
             then Some "httpclientVersion = '4.5.13'" else None)
          (fun p _ => String.substring 3 (String.length p - 3) p)
          (fun _ => false)
          (fun argv _ =>
             let config := nth 3 argv EmptyString in
             if String.eqb config "compileClasspath" then TimeoutExpired
             else if String.eqb config "runtimeClasspath"
             then Completed 0
                    "+--- org.apache.httpcomponents:httpclient:4.5.14"
                    EmptyString
             else Completed 1 EmptyString "FAILURE: Build failed")
          0%Q 3%Q (rmtree_error quiet).

Definition request : AnalysisRequest.t :=
  AnalysisRequest.mk "octo/demo" "httpclient" None.

(** The job record [POST /analyze] creates for that request. *)
Definition fresh_job : AnalysisResult.t :=
  AnalysisResult.mk (AnalysisRequest.repository request)
                    (AnalysisRequest.dependency_name request)
                    "7c9e6679-7425-40de-944b-e07fc1f90ae7" "processing"
                    [] [] None None.

(** Two records of the same tree entry, one seen directly and one
    seen below a parent. *)
Definition direct : DependencyMatch :=
  mkMatch "gradle_tree_compileClasspath" "4.5.13" None None
          ["org.apache.httpcomponents:httpclient"]
          "+--- org.apache.httpcomponents:httpclient:4.5.13".

Definition below_parent : DependencyMatch :=
  mkMatch "gradle_tree_compileClasspath" "4.5.13"
          (Some "org.example:app") None
          ["org.example:app"; "org.apache.httpcomponents:httpclient"]
          "\--- org.apache.httpcomponents:httpclient:4.5.13".

End Examples.

(** ** File scanner: [DependencyAnalyzer.identify_gradle_files] *)

Module FileScanner.

(** The content of a directory as [os.walk] lists it, in scan order;
    the trees have no symbolic links and no unreadable directories. *)
#[warnings="-register-all"]
Inductive entry : Type :=
| File (name : string)
| Dir (name : string) (children : list entry).

(** The test on a file name. *)
Definition is_gradle_file (file : string) : bool :=
  Path.endswith ".gradle" file
  || Path.endswith ".gradle.kts" file
  || String.eqb file "gradle.properties".

(** [dirs[:] = [d for d in dirs if not d.startswith('.') and d != 'build']] *)
Definition keep_dir (d : string) : bool :=
  negb (Py.startswith "." d) && negb (String.eqb d "build").

(** The [files] list of a directory. *)
Definition files_of (entries : list entry) : list string :=
  flat_map (fun e => match e with File name => [name] | Dir _ _ => [] end)
           entries.

(** The paths appended while the walk is at directory [root]. *)
Definition found_in (root : string) (entries : list entry) : list string :=
  map (Path.join root) (List.filter is_gradle_file (files_of entries)).

(** The paths appended by the walk below one entry of [root]: a kept
    sub-directory is visited top-down, its own files first, then its
    sub-directories in order. *)
Fixpoint visit (root : string) (e : entry) : list string :=
  match e with
  | File _ => []
  | Dir d children =>
      if keep_dir d
      then found_in (Path.join root d) children
           ++ flat_map (visit (Path.join root d)) children
      else []
  end.

(** [DependencyAnalyzer.identify_gradle_files] on the tree below
    [repo_dir]. *)
Definition identify_gradle_files (repo_dir : string) (tree : list entry)
  : list string :=
  found_in repo_dir tree ++ flat_map (visit repo_dir) tree.

End FileScanner.

(** ** Hoisting the archive's nested folder in [clone_repository] *)

Module Hoist.

Import FileScanner.

Definition name_of (e : entry) : string :=
  match e with
  | File name => name
  | Dir name _ => name
  end.

Definition names (es : list entry) : list string := map name_of es.

Definition has_name (n : string) (es : list entry) : bool :=
  existsb (fun e => String.eqb (name_of e) n) es.

(** [extracted_dirs[0]]: the first directory of the listing. *)
Fixpoint first_dir (top : list entry) : option (string * list entry) :=
  match top with
  | [] => None
  | Dir d children :: _ => Some (d, children)
  | File _ :: rest => first_dir rest
  end.

(** The listing without its first directory: [os.rmdir]. *)
Fixpoint remove_first_dir (top : list entry) : list entry :=
  match top with
  | [] => []
  | Dir _ _ :: rest => rest
  | File n :: rest => File n :: remove_first_dir rest
  end.

(** [for item in os.listdir(actual_repo_dir): shutil.move(..., repo_dir)]:
    [shutil.move] into an existing directory raises when an entry of
    the item's name is already there. *)
Fixpoint move_all (repo_dir : string) (items top : list entry)
  : outcome (list entry) :=
  match items with
  | [] => Return top
  | item :: rest =>
      if has_name (name_of item) top
      then Raise ("Destination path '"
                  +:+ Path.join repo_dir (name_of item)
                  +:+ "' already exists")
      else move_all repo_dir rest (top ++ [item])
  end.

(** The listing of [repo_dir] after the hoisting step. *)
Definition hoist_listing (repo_dir : string) (top : list entry)
  : outcome (list entry) :=
  match first_dir top with
  | None => Return top
  | Some (d, children) =>
      match move_all repo_dir children top with
      | Return top' => Return (remove_first_dir top')
      | Raise e => Raise e
      end
  end.

End Hoist.

(** ** The polling client: [test_analysis] in [test.py] *)

Module Client.

(** What one [GET /status/{job_id}] shows the client: the HTTP status
    code and the [status] field of the body. *)
Definition seen (r : Jobs.http_result AnalysisResult.t) : Z * string :=
  match r with
  | Jobs.Ok200 body => (200%Z, AnalysisResult.status body)
  | Jobs.HTTPException code _ => (Z.of_nat code, EmptyString)
  end.

Definition max_attempts : nat := 30.

(** The [while attempt < max_attempts] loop; [responses k] is what the
    poll of attempt [k] sees, [remaining] is [max_attempts - attempt]. *)
Fixpoint poll_loop (remaining attempt : nat) (responses : nat -> Z * string)
  : bool :=
  match remaining with
  | 0 => false
  | S remaining' =>
      let '(status_code, status) := responses attempt in
      if negb (status_code =? 200)%Z then false
      else if String.eqb status "completed" then true
      else if String.eqb status "failed" then false
      else poll_loop remaining' (S attempt) responses
  end.

Definition wait_for_job (responses : nat -> Z * string) : bool :=
  poll_loop max_attempts 0 responses.

End Client.

(** ** More vocabulary of the statements *)

Module Vocab.

(** Adding a key to the keys seen so far, unless it is among them. *)
Definition note_key (seen : list string) (k : string) : list string :=
  if existsb (String.eqb k) seen then seen else seen ++ [k].

(** The keys of a list in the order of their first occurrence. *)
Definition first_occurrences (ks : list string) : list string :=
  fold_left note_key ks [].

(** The dict that files every record of a list under its key. *)
Definition filed (L : list DependencyMatch) : Merger.dict :=
  map (fun m => (Merger.key_of m, m)) L.

(** Every character of [s] passes the test [P]. *)
Fixpoint all_chars (P : ascii -> bool) (s : string) : bool :=
  match s with
  | EmptyString => true
  | String c s' => P c && all_chars P s'
  end.

(** Not one of the characters the tree parser deletes from a line. *)
Definition plain_char (c : ascii) : bool :=
  negb (Re.atom_ok false TreeParser.tree_chars c).

(** A job whose record shows a terminal status. *)
Definition terminal (store : gmap string AnalysisResult.t) (job_id : string)
  : Prop :=
  exists r, store !! job_id = Some r /\
            (AnalysisResult.status r = "completed"
             \/ AnalysisResult.status r = "failed").

(** An event that is not a submission under the identifier [job_id]. *)
Definition not_submit (job_id : string) (e : Jobs.event) : Prop :=
  match e with
  | Jobs.Submit uuid _ => uuid <> job_id
  | _ => True
  end.

(** A descriptor file the walk reaches from [root]: it lies in [root]
    itself or below a chain of kept directories. *)
Inductive reached : string -> list FileScanner.entry -> string -> Prop :=
| reached_here root es name :
    In (FileScanner.File name) es ->
    FileScanner.is_gradle_file name = true ->
    reached root es (Path.join root name)
| reached_below root es d children p :
    In (FileScanner.Dir d children) es ->
    FileScanner.keep_dir d = true ->
    reached (Path.join root d) children p ->
    reached root es p.

(** The files of the scan whose text can be read. *)
Definition readable (w : world) (files : list string) : list string :=
  List.filter (fun f => match read_text w f with
                        | Some _ => true
                        | None => false
                        end) files.

(** The line context the static scanner writes for line [n]. *)
Definition context_of (n : nat) (line : string) : string :=
  "Line " +:+ Py.str_of_nat n +:+ ": " +:+ Py.strip line.

(** A record of the static scanner for line number [n] of the file
    with relative path [rel]: some pattern of the list matches the
    line. *)
Definition cites (rel name : string) (n : nat) (line : string)
           (m : DependencyMatch) : Prop :=
  file_path m = rel /\
  line_context m = context_of n line /\
  Exists (fun p => Spec.applies line p = true)
         (StaticScanner.version_patterns name).

(** A record of the tree parser for a line of the tool's output: the
    line is not blank, is no separator and contains the target name. *)
Definition from_line (name config : string) (line : string)
           (m : DependencyMatch) : Prop :=
  file_path m = "gradle_tree_" +:+ config /\
  line_context m = Py.strip line /\
  Py.contains (Py.lower name) (Py.lower line) = true /\
  Py.strip line <> EmptyString /\
  Py.startswith "----" line = false.

(** Characters other than the colon, and other than the two quotes. *)
Definition no_colon (c : ascii) : bool := negb (Ascii.eqb c ":").

Definition no_quote (c : ascii) : bool :=
  negb (Ascii.eqb c "'") && negb (Ascii.eqb c "034").

(** A record whose version is not empty and holds no quote character. *)
Definition quoted_text (m : DependencyMatch) : Prop :=
  current_version m <> EmptyString /\
  all_chars no_quote (current_version m) = true.

(** A record of the tree parser as the patterns shape it: the version
    is not empty and holds no colon, and neither the version nor a name
    of the dependency path holds a character the parser deletes (white
    space, plus, minus, backslash, bar). *)
Definition compact (m : DependencyMatch) : Prop :=
  current_version m <> EmptyString /\
  all_chars no_colon (current_version m) = true /\
  all_chars plain_char (current_version m) = true /\
  Forall (fun d => all_chars plain_char d = true) (dependency_path m).

(** Characters other than the path separator. *)
Definition no_slash (c : ascii) : bool := negb (Ascii.eqb c "/").

(** The world [w] with another answer for the removal in
    [cleanup_repository]. *)
Definition with_rmtree_error (w : world) (f : string -> option string)
  : world :=
  mkWorld (uuid4 w) (requests_get w) (zip_extract w) (hoist w)
          (gradle_files_in w) (read_text w) (relpath w) (path_exists w)
          (subprocess_run w) (time_start w) (time_end w) f.

End Vocab.

(** ** Concrete runs of the service used below *)

Module Scenarios.

Definition uuid : string := "7c9e6679-7425-40de-944b-e07fc1f90ae7".

(** A job was submitted for a repository without descriptor files and
    its background task has run. *)
Definition finished : Jobs.state :=
  Jobs.run_events
    (Jobs.mkState ∅ ∅)
    [Jobs.Submit uuid Examples.request;
     Jobs.Background Examples.no_descriptors uuid "octo/demo" "httpclient" None].

(** Its record at that point. *)
Definition finished_record : AnalysisResult.t :=
  AnalysisResult.mk "octo/demo" "httpclient" uuid "completed" [] []
                    (Some "No Gradle files found in repository") None.

(** Later traffic: a poll, a second run of the task against a broken
    archive, and a submission under another identifier. *)
Definition later : list Jobs.event :=
  [Jobs.Poll uuid;
   Jobs.Background Examples.broken_archive uuid "octo/demo" "httpclient" None;
   Jobs.Submit "0f8fad5b-d9cb-469f-a165-70867728950e" Examples.request].

(** The repository without descriptor files again, with a scratch
    directory that cannot be removed. *)
Definition stuck_cleanup : world :=
  Vocab.with_rmtree_error Examples.no_descriptors
    (fun _ => Some "[Errno 13] Permission denied").

End Scenarios.

(** ** Records of two pairs with one key string *)

Module Collisions.

(** Two records of the pair ([a.gradle], [b.gradle_1]). *)
Definition m1 : DependencyMatch :=
  mkMatch "a.gradle" "b.gradle_1" None None ["dep:b.gradle_1"]
          "Line 1: dep = 'b.gradle_1'".

Definition m1b : DependencyMatch :=
  mkMatch "a.gradle" "b.gradle_1" None None ["dep:b.gradle_1"]
          "Line 7: dep = 'b.gradle_1'".

(** A record of the pair ([a.gradle_b.gradle], [1]) with a parent and
    a longer path. *)
Definition m2 : DependencyMatch :=
  mkMatch "a.gradle_b.gradle" "1" (Some "org.example:app") None
          ["org.example:app"; "dep:1"] "Line 1: dep = '1'".

(** A repository root with [a.gradle], holding one declaration, and
    [a.gradle_b.gradle], holding the same declaration on two lines. *)
Definition repository : world :=
  mkWorld (uuid4 Examples.quiet) (requests_get Examples.quiet)
          (zip_extract Examples.quiet) (hoist Examples.quiet)
          (fun _ => ["/r/a.gradle"; "/r/a.gradle_b.gradle"])
          (fun p =>
             if String.eqb p "/r/a.gradle" then Some "dep = 'b.gradle_1'"
             else if String.eqb p "/r/a.gradle_b.gradle"
             then Some ("dep = '1'" +:+ Examples.nl +:+ "dep = '1'")
             else None)
          (fun p _ => String.substring 3 (String.length p - 3) p)
          (path_exists Examples.quiet) (subprocess_run Examples.quiet)
          (time_start Examples.quiet) (time_end Examples.quiet)
          (rmtree_error Examples.quiet).

(** The records the static scan reads there. *)
Definition scanned : list DependencyMatch :=
  Analyzer.analyze_gradle_files_directly
    repository ["/r/a.gradle"; "/r/a.gradle_b.gradle"] "dep" "/r".

Definition second_file_line_1 : DependencyMatch :=
  mkMatch "a.gradle_b.gradle" "1" None None ["dep:1"] "Line 1: dep = '1'".

Definition second_file_line_2 : DependencyMatch :=
  mkMatch "a.gradle_b.gradle" "1" None None ["dep:1"] "Line 2: dep = '1'".

End Collisions.

(** * Properties *)

(** ** Match merger *)

Module MergerFacts.

Import Merger Spec.

Lemma eqb_key_true (k k' : string) : String.eqb k k' = true <-> k = k'.
Proof. apply String.eqb_eq. Qed.

Lemma eqb_key_false (k k' : string) : String.eqb k k' = false <-> k <> k'.
Proof. apply String.eqb_neq. Qed.

Ltac case_key k k' :=
  let E := fresh "E" in
  destruct (String.eqb k k') eqn:E;
  [apply eqb_key_true in E | apply eqb_key_false in E].

(** *** The dict operations *)

Lemma dict_get_app (k : string) (d d' : dict) :
  dict_get k (d ++ d') =
  match dict_get k d with
  | Some e => Some e
  | None => dict_get k d'
  end.
Proof.
  induction d as [|[k0 e0] d IH]; simpl; [reflexivity|].
  destruct (String.eqb k k0); [reflexivity | exact IH].
Qed.

Lemma dict_get_set_same (k : string) (v e : DependencyMatch) (d : dict) :
  dict_get k d = Some e -> dict_get k (dict_set k v d) = Some v.
Proof.
  induction d as [|[k0 e0] d IH]; simpl; [discriminate|].
  destruct (String.eqb k k0) eqn:E; simpl; rewrite E; auto.
Qed.

Lemma dict_get_set_other (k k' : string) (v : DependencyMatch) (d : dict) :
  k <> k' -> dict_get k' (dict_set k v d) = dict_get k' d.
Proof.
  intros Hne. induction d as [|[k0 e0] d IH]; simpl; [reflexivity|].
  case_key k k0; simpl.
  - subst k0. case_key k' k; [congruence | reflexivity].
  - rewrite IH. reflexivity.
Qed.

Lemma dict_set_keys (k : string) (v : DependencyMatch) (d : dict) :
  fst <$> dict_set k v d = fst <$> d.
Proof.
  induction d as [|[k0 e0] d IH]; simpl; [reflexivity|].
  destruct (String.eqb k k0); csimpl; [reflexivity|].
  f_equal. exact IH.
Qed.

Lemma dict_get_None (k : string) (d : dict) :
  dict_get k d = None <-> k ∉ fst <$> d.
Proof.
  induction d as [|[k0 e0] d IH]; simpl.
  - split; [intros _; apply not_elem_of_nil | reflexivity].
  - rewrite not_elem_of_cons. simpl. case_key k k0.
    + split; [discriminate | intros [? _]; contradiction].
    + rewrite IH. tauto.
Qed.

Lemma dict_get_elem (k : string) (e : DependencyMatch) (d : dict) :
  dict_get k d = Some e -> (k, e) ∈ d.
Proof.
  induction d as [|[k0 e0] d IH]; simpl; [discriminate|].
  case_key k k0.
  - intros [= ->]. subst. apply list_elem_of_here.
  - intros H. apply list_elem_of_further. auto.
Qed.

Lemma elem_dict_get (k : string) (e : DependencyMatch) (d : dict) :
  NoDup (fst <$> d) -> (k, e) ∈ d -> dict_get k d = Some e.
Proof.
  induction d as [|[k0 e0] d IH]; simpl.
  - intros _ H. apply elem_of_nil in H. contradiction.
  - rewrite NoDup_cons. intros [Hk0 Hnd] Hin.
    apply elem_of_cons in Hin as [Heq | Hin].
    + injection Heq as -> ->. rewrite String.eqb_refl. reflexivity.
    + case_key k k0.
      * subst k0. exfalso. apply Hk0.
        apply (list_elem_of_fmap_2 fst) in Hin. exact Hin.
      * auto.
Qed.

(** *** What merging into a record keeps and changes *)

Lemma merge_into_file_path (e m : DependencyMatch) :
  file_path (merge_into e m) = file_path e.
Proof. unfold merge_into. repeat (destruct (_ : bool); simpl); reflexivity. Qed.

Lemma merge_into_current_version (e m : DependencyMatch) :
  current_version (merge_into e m) = current_version e.
Proof. unfold merge_into. repeat (destruct (_ : bool); simpl); reflexivity. Qed.

Lemma merge_into_line_context (e m : DependencyMatch) :
  line_context (merge_into e m) = line_context e.
Proof. unfold merge_into. repeat (destruct (_ : bool); simpl); reflexivity. Qed.

Lemma merge_into_key (e m : DependencyMatch) :
  key_of (merge_into e m) = key_of e.
Proof.
  unfold key_of.
  rewrite merge_into_file_path, merge_into_current_version. reflexivity.
Qed.

(** *** The loop keeps the dict well keyed *)

Lemma well_keyed_nil : well_keyed [].
Proof. split; constructor. Qed.

Lemma merge_step_well_keyed (d : dict) (m : DependencyMatch) :
  well_keyed d -> well_keyed (merge_step d m).
Proof.
  intros [Hnd Hk]. unfold merge_step.
  destruct (dict_get (key_of m) d) as [existing|] eqn:Hget.
  - split.
    + rewrite dict_set_keys. exact Hnd.
    + assert (Hex : key_of existing = key_of m).
      { apply dict_get_elem in Hget.
        rewrite Forall_forall in Hk. exact (Hk _ Hget). }
      clear Hget Hnd. induction d as [|[k0 e0] d IH]; simpl; [constructor|].
      apply Forall_cons in Hk as [Hk0 Hk]. simpl in Hk0.
      case_key (key_of m) k0.
      * constructor; [|exact Hk]. simpl.
        rewrite merge_into_key. congruence.
      * constructor; [exact Hk0 | auto].
  - split.
    + rewrite fmap_app. apply NoDup_app. repeat split.
      * exact Hnd.
      * intros k Hin Hin'. apply list_elem_of_singleton in Hin'.
        simpl in Hin'. subst k.
        apply dict_get_None in Hget. contradiction.
      * apply NoDup_singleton.
    + apply Forall_app. split; [exact Hk|].
      constructor; [reflexivity | constructor].
Qed.

Lemma merge_loop_well_keyed (L : list DependencyMatch) (d : dict) :
  well_keyed d -> well_keyed (merge_loop L d).
Proof.
  revert d. induction L as [|m L IH]; intros d Hd; simpl; [exact Hd|].
  apply IH, merge_step_well_keyed, Hd.
Qed.

(** *** The record kept under a key *)

Lemma merge_loop_get (L : list DependencyMatch) (d : dict) (k : string) :
  dict_get k (merge_loop L d) =
  match dict_get k d with
  | Some e => Some (fold_left merge_into (candidates k L) e)
  | None => merged_of (candidates k L)
  end.
Proof.
  revert d. induction L as [|m L IH]; intros d; simpl.
  - destruct (dict_get k d); reflexivity.
  - unfold merge_loop in IH. rewrite IH. unfold merge_step.
    case_key (key_of m) k.
    + subst k.
      destruct (dict_get (key_of m) d) as [existing|] eqn:Hget.
      * rewrite (dict_get_set_same _ _ _ _ Hget). reflexivity.
      * rewrite dict_get_app, Hget. simpl.
        rewrite String.eqb_refl. reflexivity.
    + destruct (dict_get (key_of m) d) as [existing|] eqn:Hget.
      * rewrite dict_get_set_other by exact E. reflexivity.
      * rewrite dict_get_app. simpl.
        assert (String.eqb k (key_of m) = false) as ->.
        { apply eqb_key_false. congruence. }
        destruct (dict_get k d); reflexivity.
Qed.

Lemma merged_record (L : list DependencyMatch) (k : string) :
  dict_get k (merge_loop L []) = merged_of (candidates k L).
Proof. rewrite merge_loop_get. reflexivity. Qed.

(** A record of the result is the one the dict holds under its key. *)
Lemma merged_elem (L : list DependencyMatch) (r : DependencyMatch) :
  r ∈ merge_duplicate_matches L <->
  dict_get (key_of r) (merge_loop L []) = Some r.
Proof.
  unfold merge_duplicate_matches.
  destruct (merge_loop_well_keyed L [] well_keyed_nil) as [Hnd Hk].
  change (map snd (merge_loop L [])) with (snd <$> merge_loop L []).
  rewrite list_elem_of_fmap. split.
  - intros [[k e] [-> Hin]]. simpl.
    rewrite Forall_forall in Hk. pose proof (Hk _ Hin) as Hke. simpl in Hke.
    rewrite Hke. apply elem_dict_get; assumption.
  - intros Hget. apply dict_get_elem in Hget.
    exists (key_of r, r). split; [reflexivity | exact Hget].
Qed.

(** *** Folding later duplicates into the base *)

Lemma merge_into_path (e m : DependencyMatch) :
  dependency_path (merge_into e m) =
  if length (dependency_path e) <? length (dependency_path m)
  then dependency_path m else dependency_path e.
Proof.
  unfold merge_into.
  destruct (Py.truthy (parent_dependency m) && _); simpl;
    destruct (Py.truthy (parent_version m) && _); simpl;
    destruct (_ <? _); reflexivity.
Qed.

Lemma merge_into_parent (e m : DependencyMatch) :
  parent_dependency (merge_into e m) =
  if has_parent m && negb (has_parent e)
  then parent_dependency m else parent_dependency e.
Proof.
  unfold merge_into, has_parent.
  destruct (Py.truthy (parent_dependency m) && _); simpl;
    destruct (Py.truthy (parent_version m) && _); simpl;
    destruct (_ <? _); reflexivity.
Qed.

Lemma merge_into_parent_version (e m : DependencyMatch) :
  parent_version (merge_into e m) =
  if has_parent_version m && negb (has_parent_version e)
  then parent_version m else parent_version e.
Proof.
  unfold merge_into, has_parent_version.
  destruct (Py.truthy (parent_dependency m) && _); simpl;
    destruct (Py.truthy (parent_version m) && _); simpl;
    destruct (_ <? _); reflexivity.
Qed.

Section Fold.

Variable cs : list DependencyMatch.

Lemma fold_file_path : forall b,
  file_path (fold_left merge_into cs b) = file_path b.
Proof.
  induction cs as [|c cs' IH]; intros b; simpl; [reflexivity|].
  rewrite IH. apply merge_into_file_path.
Qed.

Lemma fold_current_version : forall b,
  current_version (fold_left merge_into cs b) = current_version b.
Proof.
  induction cs as [|c cs' IH]; intros b; simpl; [reflexivity|].
  rewrite IH. apply merge_into_current_version.
Qed.

Lemma fold_line_context : forall b,
  line_context (fold_left merge_into cs b) = line_context b.
Proof.
  induction cs as [|c cs' IH]; intros b; simpl; [reflexivity|].
  rewrite IH. apply merge_into_line_context.
Qed.

Lemma fold_path_elem : forall b,
  dependency_path (fold_left merge_into cs b)
  ∈ dependency_path <$> (b :: cs).
Proof.
  induction cs as [|c cs' IH]; intros b; simpl.
  - apply list_elem_of_here.
  - specialize (IH (merge_into b c)).
    apply elem_of_cons in IH as [IH | IH].
    + rewrite IH, merge_into_path. csimpl.
      destruct (_ <? _).
      * apply list_elem_of_further, list_elem_of_here.
      * apply list_elem_of_here.
    + csimpl. do 2 apply list_elem_of_further. exact IH.
Qed.

Lemma fold_path_longest : forall b,
  Forall (fun c => length (dependency_path c)
                   <= length (dependency_path (fold_left merge_into cs b)))
         (b :: cs).
Proof.
  induction cs as [|c cs' IH]; intros b; simpl.
  - constructor; [lia | constructor].
  - specialize (IH (merge_into b c)).
    apply Forall_cons in IH as [Hhd Htl].
    rewrite merge_into_path in Hhd.
    destruct (length (dependency_path b) <? length (dependency_path c)) eqn:E;
      [apply Nat.ltb_lt in E | apply Nat.ltb_ge in E];
      repeat constructor; try exact Htl; lia.
Qed.

Lemma fold_has_parent : forall b,
  has_parent (fold_left merge_into cs b) = existsb has_parent (b :: cs).
Proof.
  induction cs as [|c cs' IH]; intros b; simpl.
  - rewrite orb_false_r. reflexivity.
  - rewrite IH. simpl. rewrite orb_assoc. f_equal.
    unfold has_parent at 1. rewrite merge_into_parent.
    fold (has_parent b). unfold has_parent.
    destruct (Py.truthy (parent_dependency c)) eqn:Ec,
             (Py.truthy (parent_dependency b)) eqn:Eb; simpl; congruence.
Qed.

Lemma fold_has_parent_version : forall b,
  has_parent_version (fold_left merge_into cs b)
  = existsb has_parent_version (b :: cs).
Proof.
  induction cs as [|c cs' IH]; intros b; simpl.
  - rewrite orb_false_r. reflexivity.
  - rewrite IH. simpl. rewrite orb_assoc. f_equal.
    unfold has_parent_version at 1. rewrite merge_into_parent_version.
    unfold has_parent_version.
    destruct (Py.truthy (parent_version c)) eqn:Ec,
             (Py.truthy (parent_version b)) eqn:Eb; simpl; congruence.
Qed.

Lemma fold_keeps_parent : forall b,
  has_parent b = true ->
  parent_dependency (fold_left merge_into cs b) = parent_dependency b.
Proof.
  induction cs as [|c cs' IH]; intros b Hb; simpl; [reflexivity|].
  assert (Hstep : parent_dependency (merge_into b c) = parent_dependency b).
  { rewrite merge_into_parent, Hb, andb_false_r. reflexivity. }
  rewrite IH; [exact Hstep|].
  unfold has_parent in *. rewrite Hstep. exact Hb.
Qed.

Lemma fold_keeps_parent_version : forall b,
  has_parent_version b = true ->
  parent_version (fold_left merge_into cs b) = parent_version b.
Proof.
  induction cs as [|c cs' IH]; intros b Hb; simpl; [reflexivity|].
  assert (Hstep : parent_version (merge_into b c) = parent_version b).
  { rewrite merge_into_parent_version, Hb, andb_false_r. reflexivity. }
  rewrite IH; [exact Hstep|].
  unfold has_parent_version in *. rewrite Hstep. exact Hb.
Qed.

End Fold.

(** *** A merged list merges to itself *)

Lemma merge_loop_values (d2 : dict) : forall d1 : dict,
  well_keyed (d1 ++ d2) -> merge_loop (snd <$> d2) d1 = d1 ++ d2.
Proof.
  induction d2 as [|[k e] d2 IH]; intros d1 Hwk; simpl.
  - rewrite app_nil_r. reflexivity.
  - destruct Hwk as [Hnd Hk].
    assert (Hke : key_of e = k).
    { apply Forall_app in Hk as [_ Hk].
      apply Forall_cons in Hk as [Hk _]. exact Hk. }
    assert (Hfresh : dict_get k d1 = None).
    { apply dict_get_None. rewrite fmap_app in Hnd.
      apply NoDup_app in Hnd as (_ & Hdisj & _).
      intros Hin. apply (Hdisj _ Hin). csimpl. apply list_elem_of_here. }
    unfold merge_loop in *. csimpl. unfold merge_step at 2.
    rewrite Hke, Hfresh.
    rewrite IH; rewrite <- app_assoc; [reflexivity|]. split; assumption.
Qed.

(** *** One record per key in the result *)

Lemma candidates_values (d : dict) (k : string) :
  well_keyed d ->
  candidates k (snd <$> d) =
  match dict_get k d with
  | Some r => [r]
  | None => []
  end.
Proof.
  induction d as [|[k0 e0] d IH]; intros [Hnd Hk]; [reflexivity|].
  apply Forall_cons in Hk as [Hk0 Hk]. simpl in Hk0.
  csimpl in Hnd. apply NoDup_cons in Hnd as [Hfresh Hnd].
  unfold candidates in *. csimpl. rewrite Hk0.
  rewrite IH by (split; assumption).
  case_key k0 k.
  - assert (String.eqb k k0 = true) as ->.
    { apply eqb_key_true. congruence. }
    assert (dict_get k d = None) as ->; [|reflexivity].
    apply dict_get_None. rewrite <- E. exact Hfresh.
  - assert (String.eqb k k0 = false) as ->; [|reflexivity].
    apply eqb_key_false. congruence.
Qed.

Lemma candidates_elem (L : list DependencyMatch) (m : DependencyMatch) :
  m ∈ L -> m ∈ candidates (key_of m) L.
Proof.
  intros Hin. unfold candidates.
  apply list_elem_of_In, filter_In. split.
  - apply list_elem_of_In, Hin.
  - apply String.eqb_refl.
Qed.

End MergerFacts.

(** C6. Merging is idempotent: for every list [L] of matches,
    merging the merged list gives the merged list again, as the same
    sequence. *)
Theorem C6_merge_idempotent (L : list DependencyMatch) :
  Merger.merge_duplicate_matches (Merger.merge_duplicate_matches L)
  = Merger.merge_duplicate_matches L.
Proof.
  unfold Merger.merge_duplicate_matches.
  change (map snd (Merger.merge_loop L []))
    with (snd <$> Merger.merge_loop L []).
  rewrite (MergerFacts.merge_loop_values (Merger.merge_loop L []) []).
  - reflexivity.
  - apply MergerFacts.merge_loop_well_keyed, MergerFacts.well_keyed_nil.
Qed.

(** The merged record of a key.  Take any input list [L] and any record
    [m] of it, and let the candidates be the records of [L] filed under
    the key string of [m] (all records with the file path and version
    of [m] are among them, and so is every record of another pair that
    has the same key string).  The candidates are not empty; the result holds
    exactly one record [r] under that key; [r] has the file path,
    version and line context of the first-seen candidate [base]; its
    dependency path is the path of one of the candidates and no
    candidate has a longer one; its parent dependency (resp. parent
    version) is non-empty exactly when some candidate's is, and is the
    base's own when the base has one. *)
Lemma merged_record_by_key (L : list DependencyMatch) (m : DependencyMatch) :
  m ∈ L ->
  exists base rest r,
    Spec.candidates (Merger.key_of m) L = base :: rest /\
    Spec.candidates (Merger.key_of m) (Merger.merge_duplicate_matches L) = [r] /\
    file_path r = file_path base /\
    current_version r = current_version base /\
    line_context r = line_context base /\
    dependency_path r ∈ dependency_path <$> (base :: rest) /\
    Forall (fun c => length (dependency_path c) <= length (dependency_path r))
           (base :: rest) /\
    Spec.has_parent r = existsb Spec.has_parent (base :: rest) /\
    Spec.has_parent_version r
      = existsb Spec.has_parent_version (base :: rest) /\
    (Spec.has_parent base = true ->
     parent_dependency r = parent_dependency base) /\
    (Spec.has_parent_version base = true ->
     parent_version r = parent_version base).
Proof.
  intros Hin.
  pose proof (MergerFacts.candidates_elem L m Hin) as Hcand.
  pose proof (MergerFacts.merged_record L (Merger.key_of m)) as Hget.
  destruct (Spec.candidates (Merger.key_of m) L) as [|base rest] eqn:Hcs.
  { apply elem_of_nil in Hcand. contradiction. }
  simpl in Hget.
  exists base, rest, (fold_left Merger.merge_into rest base).
  split; [reflexivity|]. split.
  { unfold Merger.merge_duplicate_matches.
    change (map snd (Merger.merge_loop L []))
      with (snd <$> Merger.merge_loop L []).
    rewrite MergerFacts.candidates_values, Hget; [reflexivity|].
    apply MergerFacts.merge_loop_well_keyed, MergerFacts.well_keyed_nil. }
  split; [apply MergerFacts.fold_file_path|].
  split; [apply MergerFacts.fold_current_version|].
  split; [apply MergerFacts.fold_line_context|].
  split; [apply MergerFacts.fold_path_elem|].
  split; [apply MergerFacts.fold_path_longest|].
  split; [apply MergerFacts.fold_has_parent|].
  split; [apply MergerFacts.fold_has_parent_version|].
  split; [apply MergerFacts.fold_keeps_parent
         |apply MergerFacts.fold_keeps_parent_version].
Qed.

(** The same at a concrete list: a direct record followed by a record of the
    same entry below a parent. *)
Lemma merged_record_by_key_example :
  Examples.direct ∈ [Examples.direct; Examples.below_parent] /\
  exists r,
    Spec.candidates (Merger.key_of Examples.direct)
      (Merger.merge_duplicate_matches [Examples.direct; Examples.below_parent])
    = [r] /\
    file_path r = file_path Examples.direct.
Proof.
  split; [apply list_elem_of_here|].
  destruct (merged_record_by_key
              [Examples.direct; Examples.below_parent] Examples.direct
              (list_elem_of_here _ _))
    as (base & rest & r & Hcs & Hone & Hfp & _).
  exists r. split; [exact Hone|].
  rewrite Hfp. injection Hcs as <- _. reflexivity.
Defined.

(** Records that agree on file path and version are filed under the
    same key, and records filed under the same key that agree on the
    file path agree on the version. *)
Lemma same_pair_same_key (m1 m2 : DependencyMatch) :
  file_path m1 = file_path m2 -> current_version m1 = current_version m2 ->
  Merger.key_of m1 = Merger.key_of m2.
Proof. unfold Merger.key_of. intros -> ->. reflexivity. Qed.

Lemma same_key_same_path_same_version (m1 m2 : DependencyMatch) :
  Merger.key_of m1 = Merger.key_of m2 -> file_path m1 = file_path m2 ->
  current_version m1 = current_version m2.
Proof.
  unfold Merger.key_of. intros Hk Hp. rewrite Hp in Hk.
  apply String.app_inj in Hk. apply String.app_inj in Hk. exact Hk.
Qed.

Lemma has_underscore_app (p v : string) :
  Spec.has_underscore (p +:+ "_" +:+ v) = true.
Proof.
  induction p as [|c p IH]; simpl; [reflexivity|].
  rewrite IH. apply orb_true_r.
Qed.

(** Versions without an underscore keep the key injective on the pair. *)
Lemma key_injective_without_underscore (m1 m2 : DependencyMatch) :
  Spec.has_underscore (current_version m1) = false ->
  Spec.has_underscore (current_version m2) = false ->
  Merger.key_of m1 = Merger.key_of m2 ->
  file_path m1 = file_path m2 /\ current_version m1 = current_version m2.
Proof.
  unfold Merger.key_of.
  generalize (current_version m1) (current_version m2)
             (file_path m1) (file_path m2).
  intros v1 v2 p1. induction p1 as [|c p1 IH]; intros [|c' p2] H1 H2 Hk.
  - change (String "_" v1 = String "_" v2) in Hk.
    injection Hk as ->. split; reflexivity.
  - change (String "_" v1 = String c' (p2 +:+ "_" +:+ v2)) in Hk.
    injection Hk as _ ->. rewrite has_underscore_app in H1. discriminate.
  - change (String c (p1 +:+ "_" +:+ v1) = String "_" v2) in Hk.
    injection Hk as _ <-. rewrite has_underscore_app in H2. discriminate.
  - change (String c (p1 +:+ "_" +:+ v1) = String c' (p2 +:+ "_" +:+ v2))
      in Hk.
    injection Hk as <- Hk. destruct (IH p2 H1 H2 Hk) as [-> ->].
    split; reflexivity.
Qed.

(** Where the key of [m] is shared only by records with the file path
    of [m], the candidates for it are the records with the file path
    and the version of [m]. *)
Lemma candidates_same_pair (m : DependencyMatch) (L : list DependencyMatch) :
  Forall (fun c => Merger.key_of c = Merger.key_of m ->
                   file_path c = file_path m) L ->
  Spec.candidates (Merger.key_of m) L = Spec.same_pair m L.
Proof.
  unfold Spec.candidates, Spec.same_pair.
  induction 1 as [|c L Hc _ IH]; simpl; [reflexivity|].
  rewrite IH.
  destruct (String.eqb (Merger.key_of c) (Merger.key_of m)) eqn:Ek.
  - apply String.eqb_eq in Ek.
    pose proof (Hc Ek) as Hp.
    pose proof (same_key_same_path_same_version c m Ek Hp) as Hv.
    rewrite Hp, Hv, !String.eqb_refl. reflexivity.
  - destruct (String.eqb (file_path c) (file_path m)) eqn:Ep;
      [|reflexivity].
    destruct (String.eqb (current_version c) (current_version m)) eqn:Ev;
      [|reflexivity].
    apply String.eqb_eq in Ep, Ev. apply String.eqb_neq in Ek.
    exfalso. apply Ek. apply same_pair_same_key; assumption.
Qed.

(** C5, at the failing inputs.  Both come from the key string that C4
    shows not to be injective.

    First, the static scan of a repository whose [a.gradle] declares
    [dep = 'b.gradle_1'] and whose [a.gradle_b.gradle] declares
    [dep = '1'] on two lines.  The two records of the pair
    ([a.gradle_b.gradle], [1]) are the candidates of that pair; the
    merged list holds one record, and it has the file path, version,
    line context and dependency path of the record of [a.gradle]: the
    first-seen candidate of the pair is not its base and the path is
    no candidate's path.

    Second, the list of two records of the pair ([a.gradle],
    [b.gradle_1]) followed by a record of the other pair that has a
    parent and a longer path.  The candidates of the first pair have
    no parent and paths of length one; the merged record keeps the
    file path and version of that pair and has the parent and the path
    of the record of the other pair. *)
Theorem C5_collision_merges_across_pairs :
  (Collisions.scanned
   = [Collisions.m1; Collisions.second_file_line_1;
      Collisions.second_file_line_2] /\
   Spec.same_pair Collisions.second_file_line_1 Collisions.scanned
   = [Collisions.second_file_line_1; Collisions.second_file_line_2] /\
   Merger.merge_duplicate_matches Collisions.scanned = [Collisions.m1]) /\
  (Spec.same_pair Collisions.m1
                  [Collisions.m1; Collisions.m1b; Collisions.m2]
   = [Collisions.m1; Collisions.m1b] /\
   Merger.merge_duplicate_matches
     [Collisions.m1; Collisions.m1b; Collisions.m2]
   = [mkMatch "a.gradle" "b.gradle_1" (Some "org.example:app") None
              ["org.example:app"; "dep:1"] "Line 1: dep = 'b.gradle_1'"]).
Proof. vm_compute. repeat split. Qed.

(** C4, at the failing input.  The scanner reads [dep = 'b.gradle_1']
    in [a.gradle] and [dep = '1'] in [a.gradle_b.gradle] and produces
    two records that differ in file path and in version; both are filed
    under the key [a.gradle_b.gradle_1], and the merger returns a
    single record for them. *)
Theorem C4_key_collision :
  let ms := Analyzer.analyze_gradle_files_directly
              Examples.two_files
              ["/r/a.gradle"; "/r/a.gradle_b.gradle"] "dep" "/r" in
  exists m1 m2,
    ms = [m1; m2] /\
    file_path m1 = "a.gradle" /\ current_version m1 = "b.gradle_1" /\
    file_path m2 = "a.gradle_b.gradle" /\ current_version m2 = "1" /\
    Merger.key_of m1 = "a.gradle_b.gradle_1" /\
    Merger.key_of m2 = "a.gradle_b.gradle_1" /\
    Merger.merge_duplicate_matches ms = [m1].
Proof.
  vm_compute. eexists. eexists. repeat split.
Qed.

(** ** Tree parser *)

Module TreeParserFacts.

Import TreeParser Spec.

(** What a successful extraction returns. *)
Lemma extract_shape (line name config : string) (cp : list string)
      (rd : string) (m : DependencyMatch) :
  extract_dependency_info_from_line line name config cp rd = Some m ->
  exists group_id artifact_id version,
    let full_name := group_id +:+ ":" +:+ artifact_id in
    let transitive := (0 <? indent_level line) && negb (length cp =? 0) in
    Re.search false dep_pattern (Re.delete_runs tree_chars line)
      = Some [group_id; artifact_id; version] /\
    m = mkMatch ("gradle_tree_" +:+ config) version
                (if transitive then last_of cp else None) None
                (if transitive then cp ++ [full_name] else [full_name])
                (Py.strip line).
Proof.
  unfold extract_dependency_info_from_line, indent_level.
  destruct (Re.search false dep_pattern (Re.delete_runs tree_chars line))
    as [[|g [|a [|v [|? ?]]]]|]; try discriminate.
  destruct (_ || _); [|discriminate].
  intros [= <-]. exists g, a, v. split; reflexivity.
Qed.

(** With a prior path at hand, an indented match takes its last name
    as parent and extends it. *)
Lemma extract_transitive (line name config : string) (cp : list string)
      (rd : string) (m : DependencyMatch) :
  extract_dependency_info_from_line line name config cp rd = Some m ->
  0 < indent_level line -> cp <> [] ->
  parent_dependency m = last cp /\
  exists full_name, dependency_path m = cp ++ [full_name].
Proof.
  intros Hm Hind Hcp.
  apply extract_shape in Hm as (g & a & v & _ & ->). simpl.
  apply Nat.ltb_lt in Hind. rewrite Hind.
  destruct cp as [|c cp']; [contradiction|]. simpl.
  split; [reflexivity | eauto].
Qed.

(** Without a prior path, or without indentation, a match has no
    parent and a path of its own name only. *)
Lemma extract_root (line name config : string) (cp : list string)
      (rd : string) (m : DependencyMatch) :
  extract_dependency_info_from_line line name config cp rd = Some m ->
  indent_level line = 0 \/ cp = [] ->
  parent_dependency m = None /\ parent_version m = None /\
  exists full_name, dependency_path m = [full_name].
Proof.
  intros Hm Hroot.
  apply extract_shape in Hm as (g & a & v & _ & ->). simpl.
  destruct Hroot as [-> | ->]; simpl; [|rewrite andb_false_r]; eauto.
Qed.

Lemma parse_line_rootlike (name config rd : string)
      (acc : list DependencyMatch) (line : string) :
  Forall rootlike acc -> Forall rootlike (parse_line name config rd [] acc line).
Proof.
  intros Hacc. unfold parse_line.
  destruct (_ || _); [exact Hacc|].
  destruct (Py.contains _ _); [|exact Hacc].
  destruct (extract_dependency_info_from_line line name config [] rd)
    as [m|] eqn:Hm; [|exact Hacc].
  apply Forall_app. split; [exact Hacc|].
  constructor; [|constructor].
  eapply extract_root; [exact Hm | right; reflexivity].
Qed.

(** The parser passes the empty [current_path] to every extraction,
    so no record it returns has a parent, whatever the indentation. *)
Lemma parse_dependency_tree_rootlike (tree_output name config rd : string) :
  Forall rootlike (parse_dependency_tree tree_output name config rd).
Proof.
  unfold parse_dependency_tree.
  generalize (Py.split "010" tree_output) as lines.
  assert (Hnil : Forall rootlike []) by constructor.
  revert Hnil. generalize (@nil DependencyMatch) as acc.
  intros acc Hacc lines. revert acc Hacc.
  induction lines as [|line lines IH]; intros acc Hacc; simpl; [exact Hacc|].
  apply IH, parse_line_rootlike, Hacc.
Qed.

End TreeParserFacts.

(** C1, at the failing input.  The tree output lists
    [org.example:app] and, indented by five blanks below it, the target
    [httpclient].  The parser returns one record for the indented line,
    with no parent and with a dependency path made of the match's own
    name only. *)
Theorem C1_indented_match_without_parent :
  let tree_output :=
    "+--- org.example:app:1.0" +:+ Examples.nl +:+
    "     \--- org.apache.httpcomponents:httpclient:4.5.13" in
  Spec.indent_level
    "     \--- org.apache.httpcomponents:httpclient:4.5.13" = 5 /\
  TreeParser.parse_dependency_tree tree_output "httpclient"
                                   "compileClasspath" "/r"
  = [mkMatch "gradle_tree_compileClasspath" "4.5.13" None None
             ["org.apache.httpcomponents:httpclient"]
             "\--- org.apache.httpcomponents:httpclient:4.5.13"].
Proof. vm_compute. split; reflexivity. Qed.

(** ** The matcher: how many groups a match reports *)

Module ReFacts.

Import Re Spec.

Lemma star_continues {R : Type} (p : ascii -> bool) (k : string -> option R)
      (res : R) : forall s,
  star p s k = Some res -> exists s', k s' = Some res.
Proof.
  induction s as [|c s IH]; simpl; intros H; [eauto|].
  destruct (p c); [|eauto].
  destruct (star p s k) eqn:Hs; [|eauto].
  injection H as ->. apply IH. reflexivity.
Qed.

Lemma run_groups (icase : bool) (r : regex) :
  forall s caps k res,
    run icase r s caps k = Some res ->
    exists s' caps',
      k s' caps' = Some res /\ length caps' = length caps + groups r.
Proof.
  induction r as [|a|a|a|r1 IH1 r2 IH2|r1 IH1]; intros s caps k res; simpl.
  - intros H. exists s, caps. split; [exact H | lia].
  - destruct s as [|c s']; [discriminate|].
    destruct (atom_ok icase a c); [|discriminate].
    intros H. exists s', caps. split; [exact H | lia].
  - intros H. apply star_continues in H as [s' H].
    exists s', caps. split; [exact H | lia].
  - destruct s as [|c s']; [discriminate|].
    destruct (atom_ok icase a c); [|discriminate].
    intros H. apply star_continues in H as [s'' H].
    exists s'', caps. split; [exact H | lia].
  - intros H. apply IH1 in H as (s1 & caps1 & H & Hlen1).
    apply IH2 in H as (s2 & caps2 & H & Hlen2).
    exists s2, caps2. split; [exact H | lia].
  - intros H. apply IH1 in H as (s1 & caps1 & H & Hlen1).
    eexists _, _. split; [exact H|].
    rewrite length_app. simpl. lia.
Qed.

Lemma match_at_groups (icase : bool) (r : regex) (s : string)
      (caps : list string) :
  match_at icase r s = Some caps -> length caps = groups r.
Proof.
  unfold match_at. intros H.
  apply run_groups in H as (s' & caps' & [= <-] & Hlen). exact Hlen.
Qed.

Lemma search_groups (icase : bool) (r : regex) (caps : list string) :
  forall s, search icase r s = Some caps -> length caps = groups r.
Proof.
  induction s as [|c s IH]; simpl.
  - destruct (match_at icase r EmptyString) eqn:Hm; [|discriminate].
    intros [= <-]. eapply match_at_groups, Hm.
  - destruct (match_at icase r (String c s)) eqn:Hm.
    + intros [= <-]. eapply match_at_groups, Hm.
    + exact IH.
Qed.

Lemma escape_groups (text : string) : groups (escape text) = 0.
Proof. induction text as [|c text IH]; simpl; [reflexivity | exact IH]. Qed.

End ReFacts.

(** ** Static declaration scanner *)

Module StaticScannerFacts.

Import StaticScanner Spec.

Lemma version_patterns_groups (name : string) :
  Forall (fun p => Spec.groups p = 1 \/ Spec.groups p = 3)
         (version_patterns name).
Proof.
  unfold version_patterns.
  repeat (apply Forall_cons_2); [..|apply Forall_nil_2];
    simpl; rewrite ?ReFacts.escape_groups; simpl; auto.
Qed.

(** A pattern of the list appends one record when it matches the
    line and none when it does not. *)
Lemma pattern_matches_length (rel name : string) (n : nat) (line : string)
      (p : Re.regex) :
  Spec.groups p = 1 \/ Spec.groups p = 3 ->
  length (pattern_matches rel name n line p)
  = if applies line p then 1 else 0.
Proof.
  intros Hg. unfold pattern_matches, applies.
  destruct (Re.search true p line) as [caps|] eqn:Hs; [|reflexivity].
  apply ReFacts.search_groups in Hs.
  destruct caps as [|c1 [|c2 [|c3 [|c4 caps]]]]; simpl in *;
    try reflexivity; lia.
Qed.

Lemma pattern_matches_unparented (rel name : string) (n : nat)
      (line : string) (p : Re.regex) :
  Forall unparented (pattern_matches rel name n line p).
Proof.
  unfold pattern_matches.
  destruct (Re.search true p line) as [caps|]; [|constructor].
  destruct caps as [|c1 [|c2 [|c3 [|c4 caps]]]];
    repeat constructor.
Qed.

Lemma fold_append {A B : Type} (f : B -> list A) (xs : list B) :
  forall acc,
    fold_left (fun acc x => acc ++ f x) xs acc = acc ++ flat_map f xs.
Proof.
  induction xs as [|x xs IH]; intros acc; simpl.
  - rewrite app_nil_r. reflexivity.
  - rewrite IH, app_assoc. reflexivity.
Qed.

Lemma line_matches_flat (rel name : string) (n : nat) (line : string) :
  line_matches rel name n line
  = flat_map (pattern_matches rel name n line) (version_patterns name).
Proof. unfold line_matches. rewrite fold_append. reflexivity. Qed.

Lemma line_matches_unparented (rel name : string) (n : nat) (line : string) :
  Forall unparented (line_matches rel name n line).
Proof.
  rewrite line_matches_flat.
  induction (version_patterns name) as [|p ps IH]; simpl; [constructor|].
  apply Forall_app. split; [apply pattern_matches_unparented | exact IH].
Qed.

Lemma scan_lines_unparented (rel name : string) (lines : list string) :
  forall n, Forall unparented (scan_lines rel name n lines).
Proof.
  induction lines as [|line lines IH]; intros n; simpl; [constructor|].
  apply Forall_app. split; [apply line_matches_unparented | apply IH].
Qed.

End StaticScannerFacts.

(** C3, as the code has it.  Every pattern of the list is applied to
    every line, in the order of the list, and each pattern that matches
    appends one record: the records of a line are those of the first
    pattern, then of the second, then of the third; a line yields as
    many records as patterns match it, hence at most three. *)
Theorem C3_every_matching_pattern_contributes
        (rel name : string) (n : nat) (line : string) :
  StaticScanner.line_matches rel name n line
  = flat_map (StaticScanner.pattern_matches rel name n line)
             (StaticScanner.version_patterns name) /\
  Forall (fun p => length (StaticScanner.pattern_matches rel name n line p)
                   = if Spec.applies line p then 1 else 0)
         (StaticScanner.version_patterns name) /\
  length (StaticScanner.line_matches rel name n line)
  = length (List.filter (Spec.applies line)
                        (StaticScanner.version_patterns name)) /\
  length (StaticScanner.line_matches rel name n line) <= 3.
Proof.
  assert (Hone : Forall
            (fun p => length (StaticScanner.pattern_matches rel name n line p)
                      = if Spec.applies line p then 1 else 0)
            (StaticScanner.version_patterns name)).
  { eapply Forall_impl; [apply StaticScannerFacts.version_patterns_groups|].
    intros p Hp. apply StaticScannerFacts.pattern_matches_length, Hp. }
  assert (Hcount :
            length (StaticScanner.line_matches rel name n line)
            = length (List.filter (Spec.applies line)
                                  (StaticScanner.version_patterns name))).
  { rewrite StaticScannerFacts.line_matches_flat.
    induction Hone as [|p ps Hp _ IH]; simpl; [reflexivity|].
    rewrite length_app, Hp, IH.
    destruct (Spec.applies line p); reflexivity. }
  split; [apply StaticScannerFacts.line_matches_flat|].
  split; [exact Hone|]. split; [exact Hcount|].
  rewrite Hcount.
  etransitivity; [apply filter_length_le | simpl; lia].
Qed.

(** C3 fails as stated: the declaration line
    [httpclient = 'org.apache.httpcomponents:httpclient:4.5.13'] is
    matched by the second pattern and by the third, and yields two
    records. *)
Lemma C3_counterexample :
  StaticScanner.line_matches
    "build.gradle" "httpclient" 1
    "httpclient = 'org.apache.httpcomponents:httpclient:4.5.13'"
  = [mkMatch "build.gradle" "org.apache.httpcomponents:httpclient:4.5.13"
             None None
             ["httpclient:org.apache.httpcomponents:httpclient:4.5.13"]
             "Line 1: httpclient = 'org.apache.httpcomponents:httpclient:4.5.13'";
     mkMatch "build.gradle" "4.5.13" None None
             ["httpclient = 'org.apache.httpcomponents:httpclient"]
             "Line 1: httpclient = 'org.apache.httpcomponents:httpclient:4.5.13'"]
  /\ ~ length (StaticScanner.line_matches
                 "build.gradle" "httpclient" 1
                 "httpclient = 'org.apache.httpcomponents:httpclient:4.5.13'")
       <= 1.
Proof. vm_compute. split; [reflexivity | lia]. Qed.

(** ** Where the parent fields of merged records come from *)

Module Origin.

Import Merger Spec MergerFacts.

Lemma candidates_sub (k : string) (L : list DependencyMatch)
      (m : DependencyMatch) :
  m ∈ candidates k L -> m ∈ L /\ key_of m = k.
Proof.
  unfold candidates. rewrite list_elem_of_In, filter_In, <- list_elem_of_In.
  intros [Hin Hk]. split; [exact Hin | apply String.eqb_eq, Hk].
Qed.

(** A record of the result is its group's base with the later
    candidates merged into it. *)
Lemma merged_from (L : list DependencyMatch) (r : DependencyMatch) :
  r ∈ merge_duplicate_matches L ->
  exists base rest,
    candidates (key_of r) L = base :: rest /\
    r = fold_left merge_into rest base.
Proof.
  rewrite merged_elem, merged_record. unfold merged_of.
  destruct (candidates (key_of r) L) as [|base rest]; [discriminate|].
  intros [= <-]. eauto.
Qed.

Lemma fold_parent_elem (cs : list DependencyMatch) : forall b,
  parent_dependency (fold_left merge_into cs b)
  ∈ parent_dependency <$> (b :: cs).
Proof.
  induction cs as [|c cs IH]; intros b; simpl.
  - apply list_elem_of_here.
  - specialize (IH (merge_into b c)).
    apply elem_of_cons in IH as [IH | IH].
    + rewrite IH, merge_into_parent. csimpl.
      destruct (_ && _).
      * apply list_elem_of_further, list_elem_of_here.
      * apply list_elem_of_here.
    + csimpl. do 2 apply list_elem_of_further. exact IH.
Qed.

Lemma fold_parent_version_elem (cs : list DependencyMatch) : forall b,
  parent_version (fold_left merge_into cs b)
  ∈ parent_version <$> (b :: cs).
Proof.
  induction cs as [|c cs IH]; intros b; simpl.
  - apply list_elem_of_here.
  - specialize (IH (merge_into b c)).
    apply elem_of_cons in IH as [IH | IH].
    + rewrite IH, merge_into_parent_version. csimpl.
      destruct (_ && _).
      * apply list_elem_of_further, list_elem_of_here.
      * apply list_elem_of_here.
    + csimpl. do 2 apply list_elem_of_further. exact IH.
Qed.

(** The parent fields of a merged record are those of input records. *)
Lemma merged_parent_origin (L : list DependencyMatch) (r : DependencyMatch) :
  r ∈ merge_duplicate_matches L ->
  (exists m, m ∈ L /\ parent_dependency m = parent_dependency r) /\
  (exists m, m ∈ L /\ parent_version m = parent_version r).
Proof.
  intros Hr. apply merged_from in Hr as (base & rest & Hcs & ->).
  split.
  - pose proof (fold_parent_elem rest base) as Hin.
    apply list_elem_of_fmap in Hin as (m & Hm & Hin).
    exists m. split; [|symmetry; exact Hm].
    rewrite <- Hcs in Hin. apply candidates_sub in Hin as [Hin _]. exact Hin.
  - pose proof (fold_parent_version_elem rest base) as Hin.
    apply list_elem_of_fmap in Hin as (m & Hm & Hin).
    exists m. split; [|symmetry; exact Hm].
    rewrite <- Hcs in Hin. apply candidates_sub in Hin as [Hin _]. exact Hin.
Qed.


End Origin.

(** ** The analysis of one repository *)

Module AnalyzerFacts.

Import Analyzer Spec.

Lemma static_flat (w : world) (files : list string) (name repo_dir : string) :
  analyze_gradle_files_directly w files name repo_dir
  = flat_map (file_matches w name repo_dir) files.
Proof.
  unfold analyze_gradle_files_directly.
  rewrite <- (app_nil_l (flat_map _ files)).
  generalize (@nil DependencyMatch) as acc.
  induction files as [|f files IH]; intros acc; simpl.
  - rewrite app_nil_r. reflexivity.
  - rewrite IH. unfold file_matches at 2.
    destruct (read_text w f); [rewrite app_assoc | rewrite app_nil_l];
      reflexivity.
Qed.

Lemma static_unparented (w : world) (files : list string)
      (name repo_dir : string) :
  Forall Spec.unparented
         (analyze_gradle_files_directly w files name repo_dir).
Proof.
  rewrite static_flat.
  induction files as [|f files IH]; simpl; [constructor|].
  apply Forall_app. split; [|exact IH].
  unfold file_matches. destruct (read_text w f); [|constructor].
  apply StaticScannerFacts.scan_lines_unparented.
Qed.

Lemma tree_flat (w : world) (repo_dir name : string) (configs : list string) :
  tree_matches w repo_dir name configs
  = flat_map (config_matches w repo_dir name) configs.
Proof.
  unfold tree_matches. rewrite StaticScannerFacts.fold_append. reflexivity.
Qed.

Lemma failed_contributes_nothing (w : world) (repo_dir name config : string) :
  failed (invocation w repo_dir config) ->
  config_matches w repo_dir name config = [].
Proof.
  unfold failed, invocation, config_matches.
  destruct (subprocess_run w _ repo_dir) as [rc out err| | |];
    try reflexivity.
  intros Hrc. apply Z.eqb_neq in Hrc. rewrite Hrc. reflexivity.
Qed.


End AnalyzerFacts.

(** C9.  Every record of the static declaration scanner has neither a
    parent dependency nor a parent version; hence, when the scanner's
    records are merged after any list [tree] of tree-parser records, a
    non-empty parent field of a merged record is the parent field of a
    record of [tree]. *)
Theorem C9_static_records_unparented
        (w : world) (files : list string) (name repo_dir : string) :
  let static := Analyzer.analyze_gradle_files_directly w files name repo_dir in
  Forall (fun m => parent_dependency m = None /\ parent_version m = None)
         static /\
  forall (tree : list DependencyMatch) (r : DependencyMatch),
    r ∈ Merger.merge_duplicate_matches (tree ++ static) ->
    (Spec.has_parent r = true ->
     exists m, m ∈ tree /\ parent_dependency m = parent_dependency r) /\
    (Spec.has_parent_version r = true ->
     exists m, m ∈ tree /\ parent_version m = parent_version r).
Proof.
  intros static.
  pose proof (AnalyzerFacts.static_unparented w files name repo_dir) as Hst.
  fold static in Hst. split; [exact Hst|].
  intros tree r Hr.
  apply Origin.merged_parent_origin in Hr as [(m & Hm & Hp) (m' & Hm' & Hv)].
  rewrite Forall_forall in Hst. split.
  - intros Hhas. exists m. split; [|exact Hp].
    apply elem_of_app in Hm as [Hm | Hm]; [exact Hm|].
    destruct (Hst _ Hm) as [Hnone _].
    unfold Spec.has_parent in Hhas. rewrite <- Hp, Hnone in Hhas.
    discriminate.
  - intros Hhas. exists m'. split; [|exact Hv].
    apply elem_of_app in Hm' as [Hm' | Hm']; [exact Hm'|].
    destruct (Hst _ Hm') as [_ Hnone].
    unfold Spec.has_parent_version in Hhas. rewrite <- Hv, Hnone in Hhas.
    discriminate.
Qed.

(** C9 at a concrete input: a tree record with a parent, merged with
    the scan of two descriptor files. *)
Lemma C9_static_records_unparented_witness :
  let static :=
    Analyzer.analyze_gradle_files_directly
      Examples.two_files ["/r/a.gradle"; "/r/a.gradle_b.gradle"] "dep" "/r" in
  Examples.below_parent
    ∈ Merger.merge_duplicate_matches ([Examples.below_parent] ++ static) /\
  Spec.has_parent Examples.below_parent = true /\
  exists m, m ∈ [Examples.below_parent] /\
            parent_dependency m = parent_dependency Examples.below_parent.
Proof.
  intros static.
  assert (Hin : Examples.below_parent
                  ∈ Merger.merge_duplicate_matches
                      ([Examples.below_parent] ++ static)).
  { vm_compute. apply list_elem_of_here. }
  split; [exact Hin|]. split; [reflexivity|].
  destruct (C9_static_records_unparented
              Examples.two_files ["/r/a.gradle"; "/r/a.gradle_b.gradle"]
              "dep" "/r") as [_ Horigin].
  destruct (Horigin [Examples.below_parent] Examples.below_parent Hin)
    as [Hparent _].
  apply Hparent. reflexivity.
Defined.


(** ** Archive fetcher *)

Module FetcherFacts.

Import Fetcher Spec.

Lemma rmtree_removes (p : string) (fs : scratch) :
  p ∉ rmtree_if_exists p fs.
Proof.
  unfold rmtree_if_exists.
  destruct (decide (p ∈ fs)) as [Hin | Hout]; [|exact Hout].
  rewrite elem_of_difference, elem_of_singleton. tauto.
Qed.

Lemma not_200 (c : Z) : c <> 200%Z -> (c =? 200)%Z = false.
Proof. apply Z.eqb_neq. Qed.

(** After a 200 answer the outcome is that of extraction and hoist. *)
Lemma clone_try_answered (w : world) (work_dir repository : string)
      (token : option string) (fs : scratch) :
  answered_200 w repository (headers_of token) ->
  clone_try w work_dir repository token fs =
  match zip_extract w with
  | BadZipFile e => (fs, Raise e)
  | ExtractError e =>
      ({[repo_dir_of w work_dir repository]} ∪ fs, Raise e)
  | Extracted =>
      match hoist w with
      | HoistError e =>
          ({[repo_dir_of w work_dir repository]} ∪ fs, Raise e)
      | Hoisted =>
          ({[repo_dir_of w work_dir repository]} ∪ fs,
           Return (repo_dir_of w work_dir repository))
      end
  end.
Proof.
  unfold clone_try.
  intros [Hmain | (c & Hc & Hmain & Hmaster)]; rewrite Hmain.
  - reflexivity.
  - rewrite (not_200 c Hc). simpl. rewrite Hmaster. reflexivity.
Qed.

(** Every failure of the fetch makes the [try] block raise. *)
Lemma clone_try_raises (w : world) (work_dir repository : string)
      (token : option string) (fs : scratch) (e : string) :
  fetch_failure w repository (headers_of token) e ->
  snd (clone_try w work_dir repository token fs) = Raise e.
Proof.
  intros Hfail.
  destruct Hfail as [e Hmain | c e Hmain Hc Hmaster
                     | c1 c2 Hmain Hc1 Hmaster Hc2
                     | e Hans Hzip | e Hans Hzip | e Hans Hzip Hhoist].
  - unfold clone_try. rewrite Hmain. reflexivity.
  - unfold clone_try. rewrite Hmain, (not_200 c Hc). simpl.
    rewrite Hmaster. reflexivity.
  - unfold clone_try. rewrite Hmain, (not_200 c1 Hc1). simpl.
    rewrite Hmaster, (not_200 c2 Hc2). reflexivity.
  - rewrite clone_try_answered by exact Hans. rewrite Hzip. reflexivity.
  - rewrite clone_try_answered by exact Hans. rewrite Hzip. reflexivity.
  - rewrite clone_try_answered by exact Hans.
    rewrite Hzip, Hhoist. reflexivity.
Qed.

(** The method raises whenever its [try] block does, after removing
    the scratch directory. *)
Lemma clone_repository_raises (w : world) (work_dir repository : string)
      (token : option string) (fs : scratch) (e : string) :
  snd (clone_try w work_dir repository token fs) = Raise e ->
  clone_repository w work_dir repository token fs
  = (rmtree_if_exists (repo_dir_of w work_dir repository)
       (fst (clone_try w work_dir repository token fs)),
     Raise e).
Proof.
  unfold clone_repository.
  destruct (clone_try w work_dir repository token fs) as [fs' [d|e']]; simpl;
    [discriminate|].
  intros [= ->]. reflexivity.
Qed.

(** Conversely, the method raises only for one of the listed failures. *)
Lemma raise_is_fetch_failure (w : world) (work_dir repository : string)
      (token : option string) (fs fs' : scratch) (e : string) :
  clone_repository w work_dir repository token fs = (fs', Raise e) ->
  fetch_failure w repository (headers_of token) e.
Proof.
  unfold clone_repository, clone_try.
  destruct (requests_get w (zip_url repository "main") (headers_of token))
    as [c1|e1] eqn:Hmain.
  2:{ intros [= _ <-]. apply network_error_main, Hmain. }
  destruct (c1 =? 200)%Z eqn:Ec1; simpl.
  - apply Z.eqb_eq in Ec1. subst c1. simpl.
    assert (Hans : answered_200 w repository (headers_of token))
      by (left; exact Hmain).
    destruct (zip_extract w) as [|e2|e2] eqn:Hzip.
    + destruct (hoist w) as [|e3] eqn:Hhoist; [discriminate|].
      intros [= _ <-]. eapply hoist_error; eassumption.
    + intros [= _ <-]. eapply corrupt_archive; eassumption.
    + intros [= _ <-]. eapply extraction_error; eassumption.
  - apply Z.eqb_neq in Ec1.
    destruct (requests_get w (zip_url repository "master") (headers_of token))
      as [c2|e2] eqn:Hmaster.
    2:{ intros [= _ <-]. eapply network_error_master; eassumption. }
    destruct (c2 =? 200)%Z eqn:Ec2.
    + apply Z.eqb_eq in Ec2. subst c2.
      assert (Hans : answered_200 w repository (headers_of token)).
      { right. exists c1. auto. }
      destruct (zip_extract w) as [|e3|e3] eqn:Hzip.
      * destruct (hoist w) as [|e4] eqn:Hhoist; [discriminate|].
        intros [= _ <-]. eapply hoist_error; eassumption.
      * intros [= _ <-]. eapply corrupt_archive; eassumption.
      * intros [= _ <-]. eapply extraction_error; eassumption.
    + apply Z.eqb_neq in Ec2. intros [= _ <-].
      eapply both_not_200; eassumption.
Qed.

End FetcherFacts.

(** C7.  Whenever the fetch fails (the request for [main] raises; [main]
    answers another status than 200 and the request for [master] raises
    or answers another status than 200; the archive is corrupt or its
    extraction or hoisting raises), [clone_repository] raises the error,
    its scratch directory does not exist afterwards, and the job that
    ran the fetch ends with status [failed], the exception message as
    its error, and no scratch directory left. *)
Theorem C7_failed_fetch_leaves_no_scratch
        (w : world) (repository name : string) (token : option string)
        (fs : scratch) (job : AnalysisResult.t) (e : string) :
  Spec.fetch_failure w repository (Fetcher.headers_of token) e ->
  let repo_dir := Fetcher.repo_dir_of w Jobs.work_dir repository in
  exists fs',
    Fetcher.clone_repository w Jobs.work_dir repository token fs
    = (fs', Raise e) /\
    (repo_dir ∉ fs') /\
    exists job',
      Jobs.run_on w job repository name token fs = (job', fs') /\
      AnalysisResult.status job' = "failed" /\
      AnalysisResult.error job' = Some e.
Proof.
  intros Hfail repo_dir.
  pose proof (FetcherFacts.clone_try_raises
                w Jobs.work_dir repository token fs e Hfail) as Hraise.
  pose proof (FetcherFacts.clone_repository_raises
                w Jobs.work_dir repository token fs e Hraise) as Hclone.
  eexists. split; [exact Hclone|].
  split; [apply FetcherFacts.rmtree_removes|].
  unfold Jobs.run_on. rewrite Hclone.
  eexists. split; [reflexivity|]. split; reflexivity.
Qed.

(** C7 at a concrete input: [main] answers 404, [master] answers 200,
    and extraction fails after the scratch directory was created. *)
Lemma C7_failed_fetch_leaves_no_scratch_witness :
  Spec.fetch_failure Examples.broken_archive "octo/demo"
    (Fetcher.headers_of None)
    "Bad CRC-32 for file 'demo-1a2b3c/build.gradle'" /\
  "/tmp/gradle_analysis/repo_octo_demo_1b9d6bcd"
    ∉ fst (Fetcher.clone_repository
             Examples.broken_archive Jobs.work_dir "octo/demo" None ∅).
Proof.
  assert (Hfail : Spec.fetch_failure Examples.broken_archive "octo/demo"
                    (Fetcher.headers_of None)
                    "Bad CRC-32 for file 'demo-1a2b3c/build.gradle'").
  { apply Spec.extraction_error; [|reflexivity].
    right. exists 404%Z. repeat split. discriminate. }
  split; [exact Hfail|].
  destruct (C7_failed_fetch_leaves_no_scratch
              Examples.broken_archive "octo/demo" "httpclient" None ∅
              Examples.fresh_job _ Hfail) as (fs' & Hclone & Hgone & _).
  rewrite Hclone. exact Hgone.
Defined.

(** ** Job orchestration *)

Module JobsFacts.

Import Jobs.

(** The background task always ends in a terminal state. *)
Lemma run_on_terminal (w : world) (job : AnalysisResult.t)
      (repository name : string) (token : option string) (fs : scratch) :
  let job' := fst (run_on w job repository name token fs) in
  AnalysisResult.status job' = "completed"
  \/ AnalysisResult.status job' = "failed".
Proof.
  unfold run_on.
  destruct (Fetcher.clone_repository w work_dir repository token fs)
    as [fs1 [repo_dir|e]]; simpl; [|right; reflexivity].
  destruct (length (gradle_files_in w repo_dir) =? 0); left; reflexivity.
Qed.

(** The path without descriptor files returns before the elapsed time
    is written: the job keeps the time it had. *)
Lemma run_on_no_descriptors (w : world) (job : AnalysisResult.t)
      (repository name : string) (token : option string) (fs : scratch)
      (repo_dir : string) :
  snd (Fetcher.clone_repository w work_dir repository token fs)
  = Return repo_dir ->
  gradle_files_in w repo_dir = [] ->
  let job' := fst (run_on w job repository name token fs) in
  AnalysisResult.status job' = "completed" /\
  AnalysisResult.error job' = Some "No Gradle files found in repository" /\
  AnalysisResult.gradle_files_found job' = [] /\
  AnalysisResult.matches job' = AnalysisResult.matches job /\
  AnalysisResult.analysis_time_seconds job'
  = AnalysisResult.analysis_time_seconds job.
Proof.
  unfold run_on.
  destruct (Fetcher.clone_repository w work_dir repository token fs)
    as [fs1 [d|e]]; simpl; [|discriminate].
  intros [= ->] ->. simpl. repeat split.
Qed.

(** The other two paths write the difference of the two clock
    readings. *)
Lemma run_on_failed_time (w : world) (job : AnalysisResult.t)
      (repository name : string) (token : option string) (fs : scratch)
      (e : string) :
  snd (Fetcher.clone_repository w work_dir repository token fs) = Raise e ->
  let job' := fst (run_on w job repository name token fs) in
  AnalysisResult.status job' = "failed" /\
  AnalysisResult.analysis_time_seconds job'
  = Some (time_end w - time_start w)%Q.
Proof.
  unfold run_on.
  destruct (Fetcher.clone_repository w work_dir repository token fs)
    as [fs1 [d|e']]; simpl; [discriminate|].
  intros _. split; reflexivity.
Qed.

Lemma run_on_analysed_time (w : world) (job : AnalysisResult.t)
      (repository name : string) (token : option string) (fs : scratch)
      (repo_dir : string) :
  snd (Fetcher.clone_repository w work_dir repository token fs)
  = Return repo_dir ->
  gradle_files_in w repo_dir <> [] ->
  let job' := fst (run_on w job repository name token fs) in
  AnalysisResult.status job' = "completed" /\
  AnalysisResult.analysis_time_seconds job'
  = Some (time_end w - time_start w)%Q.
Proof.
  unfold run_on.
  destruct (Fetcher.clone_repository w work_dir repository token fs)
    as [fs1 [d|e]]; simpl; [|discriminate].
  intros [= ->] Hfiles.
  destruct (gradle_files_in w repo_dir) as [|f files]; [contradiction|].
  simpl. split; reflexivity.
Qed.

Lemma elapsed_nonneg (w : world) :
  (time_start w <= time_end w)%Q -> (0 <= time_end w - time_start w)%Q.
Proof.
  intros H. apply (Qplus_le_l _ _ (time_start w)). ring_simplify. exact H.
Qed.

(** A job identifier in the store stays in the store. *)
Lemma step_keeps (st : state) (e : event) (job_id : string) :
  is_Some (jobs st !! job_id) -> is_Some (jobs (step st e) !! job_id).
Proof.
  intros Hin. destruct e as [uuid request | j | w j repository name token];
    simpl.
  - rewrite lookup_insert_is_Some. destruct (decide (uuid = job_id)); auto.
  - exact Hin.
  - unfold run_analysis.
    destruct (jobs st !! j) as [result|]; [|exact Hin].
    destruct (run_on w result repository name token (dirs st)) as [r' fs'].
    simpl. rewrite lookup_insert_is_Some.
    destruct (decide (j = job_id)); auto.
Qed.

Lemma run_events_keeps (es : list event) : forall (st : state) (job_id : string),
  is_Some (jobs st !! job_id) ->
  is_Some (jobs (run_events st es) !! job_id).
Proof.
  induction es as [|e es IH]; intros st job_id Hin; simpl; [exact Hin|].
  apply IH, step_keeps, Hin.
Qed.

End JobsFacts.

(** C2, at the failing input.  A job is submitted for a repository
    that downloads and extracts well and contains no descriptor file,
    and its background task runs.  The status query then returns the
    job with status [completed], the error [No Gradle files found in
    repository], and [analysis_time_seconds] still [None]. *)
Theorem C2_no_descriptors_leaves_time_unset :
  let uuid := "7c9e6679-7425-40de-944b-e07fc1f90ae7" in
  let st :=
    Jobs.run_events
      (Jobs.mkState ∅ ∅)
      [Jobs.Submit uuid Examples.request;
       Jobs.Background Examples.no_descriptors uuid
                       "octo/demo" "httpclient" None] in
  Jobs.get_analysis_status (Jobs.jobs st) uuid
  = Jobs.Ok200
      (AnalysisResult.mk "octo/demo" "httpclient" uuid "completed"
                         [] [] (Some "No Gradle files found in repository")
                         None).
Proof. vm_compute. reflexivity. Qed.

(** C10.  [POST /analyze] answers with the job identifier it has just
    stored a record under: the record has status [processing] and empty
    [gradle_files_found] and [matches]; and after any further requests
    and background tasks, [GET /status] for that identifier returns a
    record, not the 404 answer. *)
Theorem C10_submitted_job_is_found
        (st : Jobs.state) (uuid : string) (request : AnalysisRequest.t) :
  let '(store, response) := Jobs.start_analysis uuid request (Jobs.jobs st) in
  exists job_id,
    response = [("job_id", job_id); ("status", "processing");
                ("check_url", "/status/" +:+ job_id)] /\
    Jobs.get_analysis_status store job_id
    = Jobs.Ok200 (AnalysisResult.mk
                    (AnalysisRequest.repository request)
                    (AnalysisRequest.dependency_name request)
                    job_id "processing" [] [] None None) /\
    forall es : list Jobs.event,
    exists result,
      Jobs.get_analysis_status
        (Jobs.jobs (Jobs.run_events (Jobs.mkState store (Jobs.dirs st)) es))
        job_id
      = Jobs.Ok200 result.
Proof.
  unfold Jobs.start_analysis. exists uuid.
  split; [reflexivity|]. split.
  - unfold Jobs.get_analysis_status. rewrite lookup_insert_eq. reflexivity.
  - intros es. unfold Jobs.get_analysis_status.
    match goal with
    | |- context [Jobs.run_events ?st1 es] =>
        destruct (JobsFacts.run_events_keeps es st1 uuid)
          as [result Hresult]
    end.
    + simpl. rewrite lookup_insert_eq. eauto.
    + rewrite Hresult. eauto.
Qed.


(** The result of that analysis: the tree record of the configuration
    that ran, then the record of the static scan. *)
Example flaky_tool_result :
  Analyzer.analyze_gradle_dependencies
    Examples.flaky_tool "/r" ["/r/a.gradle"] "httpclient"
  = [mkMatch "gradle_tree_runtimeClasspath" "4.5.14" None None
             ["org.apache.httpcomponents:httpclient"]
             "+--- org.apache.httpcomponents:httpclient:4.5.14";
     mkMatch "a.gradle" "4.5.13" None None ["httpclient:4.5.13"]
             "Line 1: httpclientVersion = '4.5.13'"].
Proof. vm_compute. reflexivity. Qed.

(** * Further properties of the code *)

(** ** Match merger: order, size and provenance *)

Module MergerMore.

Import Merger Spec Vocab MergerFacts.

Lemma existsb_key (k : string) (ks : list string) :
  existsb (String.eqb k) ks = false <-> k ∉ ks.
Proof.
  induction ks as [|k0 ks IH]; simpl.
  - split; [intros _; apply not_elem_of_nil | reflexivity].
  - rewrite not_elem_of_cons, orb_false_iff, IH, String.eqb_neq. tauto.
Qed.

Lemma dict_get_existsb (k : string) (d : dict) :
  existsb (String.eqb k) (fst <$> d)
  = match dict_get k d with Some _ => true | None => false end.
Proof.
  induction d as [|[k0 e0] d IH]; simpl; [reflexivity|].
  destruct (String.eqb k k0); simpl; [reflexivity | exact IH].
Qed.

Lemma merge_step_keys (d : dict) (m : DependencyMatch) :
  fst <$> merge_step d m = note_key (fst <$> d) (key_of m).
Proof.
  unfold merge_step, note_key. rewrite dict_get_existsb.
  destruct (dict_get (key_of m) d) as [existing|].
  - apply dict_set_keys.
  - rewrite fmap_app. reflexivity.
Qed.

Lemma merge_loop_keys (L : list DependencyMatch) : forall d : dict,
  fst <$> merge_loop L d = fold_left note_key (map key_of L) (fst <$> d).
Proof.
  induction L as [|m L IH]; intros d; simpl; [reflexivity|].
  unfold merge_loop in IH. rewrite IH, merge_step_keys. reflexivity.
Qed.

Lemma well_keyed_values (d : dict) :
  well_keyed d -> map key_of (map snd d) = fst <$> d.
Proof.
  intros [_ Hk]. induction Hk as [|[k e] d Hke _ IH]; [reflexivity|].
  simpl in Hke. csimpl. rewrite Hke, IH. reflexivity.
Qed.

Lemma merged_keys (L : list DependencyMatch) :
  map key_of (merge_duplicate_matches L) = first_occurrences (map key_of L).
Proof.
  unfold merge_duplicate_matches.
  rewrite well_keyed_values
    by apply merge_loop_well_keyed, well_keyed_nil.
  rewrite merge_loop_keys. reflexivity.
Qed.

Lemma merged_keys_NoDup (L : list DependencyMatch) :
  NoDup (map key_of (merge_duplicate_matches L)).
Proof.
  unfold merge_duplicate_matches.
  rewrite well_keyed_values
    by apply merge_loop_well_keyed, well_keyed_nil.
  apply (merge_loop_well_keyed L [] well_keyed_nil).
Qed.

Lemma dict_set_length (k : string) (v : DependencyMatch) (d : dict) :
  length (dict_set k v d) = length d.
Proof.
  induction d as [|[k0 e0] d IH]; simpl; [reflexivity|].
  destruct (String.eqb k k0); simpl; congruence.
Qed.

Lemma merge_loop_length (L : list DependencyMatch) : forall d : dict,
  length (merge_loop L d) <= length d + length L.
Proof.
  induction L as [|m L IH]; intros d; simpl; [lia|].
  unfold merge_loop in IH. etransitivity; [apply IH|].
  unfold merge_step. destruct (dict_get (key_of m) d).
  - rewrite dict_set_length. lia.
  - rewrite length_app. simpl. lia.
Qed.

Lemma filed_values (L : list DependencyMatch) : snd <$> filed L = L.
Proof.
  induction L as [|m L IH]; [reflexivity|]. unfold filed in *. csimpl.
  rewrite IH. reflexivity.
Qed.

Lemma filed_well_keyed (L : list DependencyMatch) :
  NoDup (map key_of L) -> well_keyed (filed L).
Proof.
  intros Hnd. split.
  - assert (Hk : fst <$> filed L = map key_of L).
    { induction L as [|m L IH]; [reflexivity|]. unfold filed in *. csimpl.
      rewrite IH; [reflexivity|]. apply NoDup_cons in Hnd as [_ Hnd].
      exact Hnd. }
    rewrite Hk. exact Hnd.
  - unfold filed. apply Forall_forall. intros [k e] Hin.
    apply list_elem_of_In, in_map_iff in Hin as (m & [= <- <-] & _).
    reflexivity.
Qed.

Lemma merge_loop_app (L1 L2 : list DependencyMatch) (d : dict) :
  merge_loop (L1 ++ L2) d = merge_loop L2 (merge_loop L1 d).
Proof. unfold merge_loop. apply fold_left_app. Qed.

End MergerMore.

(** X1.  The merged list holds one record per distinct key of the
    input, in the order in which the keys first occur in the input. *)
Theorem X1_merge_keeps_first_occurrence_order (L : list DependencyMatch) :
  map Merger.key_of (Merger.merge_duplicate_matches L)
  = Vocab.first_occurrences (map Merger.key_of L) /\
  NoDup (map Merger.key_of (Merger.merge_duplicate_matches L)).
Proof.
  split; [apply MergerMore.merged_keys | apply MergerMore.merged_keys_NoDup].
Qed.

(** X2.  Merging never lengthens a list, and a list whose records have
    pairwise distinct keys is returned as it is. *)
Theorem X2_merge_without_duplicates_is_identity (L : list DependencyMatch) :
  length (Merger.merge_duplicate_matches L) <= length L /\
  (NoDup (map Merger.key_of L) -> Merger.merge_duplicate_matches L = L).
Proof.
  split.
  - unfold Merger.merge_duplicate_matches. rewrite length_map.
    apply (MergerMore.merge_loop_length L []).
  - intros Hnd. unfold Merger.merge_duplicate_matches.
    rewrite <- (MergerMore.filed_values L) at 1.
    rewrite (MergerFacts.merge_loop_values (Vocab.filed L) []).
    + apply MergerMore.filed_values.
    + apply MergerMore.filed_well_keyed, Hnd.
Qed.

(** X2 at a concrete list of two records with different versions. *)
Lemma X2_merge_without_duplicates_is_identity_witness :
  NoDup (map Merger.key_of
             [Examples.direct;
              mkMatch "build.gradle" "4.5.13" None None
                      ["httpclient:4.5.13"] "Line 3: httpclient = '4.5.13'"]) /\
  Merger.merge_duplicate_matches
    [Examples.direct;
     mkMatch "build.gradle" "4.5.13" None None
             ["httpclient:4.5.13"] "Line 3: httpclient = '4.5.13'"]
  = [Examples.direct;
     mkMatch "build.gradle" "4.5.13" None None
             ["httpclient:4.5.13"] "Line 3: httpclient = '4.5.13'"].
Proof.
  assert (Hnd : NoDup (map Merger.key_of
             [Examples.direct;
              mkMatch "build.gradle" "4.5.13" None None
                      ["httpclient:4.5.13"] "Line 3: httpclient = '4.5.13'"])).
  { apply NoDup_cons. split; [|apply NoDup_singleton].
    rewrite list_elem_of_singleton. vm_compute. discriminate. }
  split; [exact Hnd|].
  apply (X2_merge_without_duplicates_is_identity _), Hnd.
Defined.

(** X3.  Merging can be done in stages: merging an already merged
    prefix together with further records gives the same list as merging
    everything at once. *)
Theorem X3_merge_in_stages (L1 L2 : list DependencyMatch) :
  Merger.merge_duplicate_matches (Merger.merge_duplicate_matches L1 ++ L2)
  = Merger.merge_duplicate_matches (L1 ++ L2).
Proof.
  unfold Merger.merge_duplicate_matches.
  rewrite !MergerMore.merge_loop_app.
  change (map snd (Merger.merge_loop L1 []))
    with (snd <$> Merger.merge_loop L1 []).
  rewrite (MergerFacts.merge_loop_values (Merger.merge_loop L1 []) []);
    [reflexivity|].
  apply MergerFacts.merge_loop_well_keyed, MergerFacts.well_keyed_nil.
Qed.

(** X4.  Merging invents nothing: a record of the result has the file
    path, version and line context of the first input record filed
    under its key, and its dependency path and each parent field are
    those of input records filed under that key. *)
Theorem X4_merge_invents_nothing
        (L : list DependencyMatch) (r : DependencyMatch) :
  r ∈ Merger.merge_duplicate_matches L ->
  exists base rest,
    Spec.candidates (Merger.key_of r) L = base :: rest /\
    file_path r = file_path base /\
    current_version r = current_version base /\
    line_context r = line_context base /\
    dependency_path r ∈ dependency_path <$> (base :: rest) /\
    parent_dependency r ∈ parent_dependency <$> (base :: rest) /\
    parent_version r ∈ parent_version <$> (base :: rest).
Proof.
  intros Hr. apply Origin.merged_from in Hr as (base & rest & Hcs & ->).
  exists base, rest.
  split; [exact Hcs|].
  split; [apply MergerFacts.fold_file_path|].
  split; [apply MergerFacts.fold_current_version|].
  split; [apply MergerFacts.fold_line_context|].
  split; [apply MergerFacts.fold_path_elem|].
  split; [apply Origin.fold_parent_elem | apply Origin.fold_parent_version_elem].
Qed.

(** X4 at a concrete list: the merged record of a direct record and a
    record of the same entry below a parent. *)
Lemma X4_merge_invents_nothing_witness :
  exists r base rest,
    r ∈ Merger.merge_duplicate_matches [Examples.direct; Examples.below_parent]
    /\ Spec.candidates (Merger.key_of r)
                       [Examples.direct; Examples.below_parent]
       = base :: rest
    /\ file_path r = file_path base.
Proof.
  assert (Hin : fold_left Merger.merge_into [Examples.below_parent]
                          Examples.direct
                ∈ Merger.merge_duplicate_matches
                    [Examples.direct; Examples.below_parent]).
  { vm_compute. apply list_elem_of_here. }
  destruct (X4_merge_invents_nothing _ _ Hin)
    as (base & rest & Hcs & Hfp & _).
  eexists _, base, rest. split; [exact Hin|]. split; [exact Hcs | exact Hfp].
Defined.

(** ** Job store and background task: what is kept and what is removed *)

Module JobsMore.

Import Jobs Vocab.








Lemma run_on_identity (w : world) (job : AnalysisResult.t)
      (repository name : string) (token : option string) (fs : scratch) :
  let job' := fst (run_on w job repository name token fs) in
  AnalysisResult.repository job' = AnalysisResult.repository job /\
  AnalysisResult.dependency_name job' = AnalysisResult.dependency_name job /\
  AnalysisResult.job_id job' = AnalysisResult.job_id job.
Proof.
  unfold run_on.
  destruct (Fetcher.clone_repository w work_dir repository token fs)
    as [fs1 [d|e]]; simpl; [|repeat split].
  destruct (length (gradle_files_in w d) =? 0); repeat split.
Qed.

(** One event and one job: the record is replaced only by the
    background task of that job, and by a submission under its
    identifier. *)
Lemma step_lookup (st : state) (e : event) (id : string) :
  not_submit id e ->
  jobs (step st e) !! id = jobs st !! id
  \/ exists w repository name token r,
       jobs st !! id = Some r /\
       jobs (step st e) !! id
       = Some (fst (run_on w r repository name token (dirs st))).
Proof.
  intros Hns. destruct e as [uuid request | j | w j repository name token];
    simpl in *.
  - left. apply lookup_insert_ne. exact Hns.
  - left. reflexivity.
  - unfold run_analysis.
    destruct (jobs st !! j) as [r|] eqn:Hj; [|left; reflexivity].
    destruct (run_on w r repository name token (dirs st)) as [r' fs'] eqn:Hrun.
    simpl. destruct (decide (j = id)) as [-> | Hne].
    + right. exists w, repository, name, token, r.
      split; [exact Hj|]. rewrite lookup_insert_eq, Hrun. reflexivity.
    + left. apply lookup_insert_ne. exact Hne.
Qed.

Lemma step_terminal (st : state) (e : event) (id : string) :
  not_submit id e -> terminal (jobs st) id -> terminal (jobs (step st e)) id.
Proof.
  intros Hns (r & Hr & Hst).
  destruct (step_lookup st e id Hns)
    as [Heq | (w & repository & name & token & r0 & Hr0 & Heq)].
  - exists r. rewrite Heq. auto.
  - eexists. split; [exact Heq|]. apply JobsFacts.run_on_terminal.
Qed.

Lemma step_absent (st : state) (e : event) (id : string) :
  not_submit id e -> jobs st !! id = None -> jobs (step st e) !! id = None.
Proof.
  intros Hns Hnone.
  destruct (step_lookup st e id Hns)
    as [Heq | (w & repository & name & token & r0 & Hr0 & _)];
    congruence.
Qed.

Lemma step_keyed (st : state) (e : event) :
  map_Forall (fun id r => AnalysisResult.job_id r = id) (jobs st) ->
  map_Forall (fun id r => AnalysisResult.job_id r = id) (jobs (step st e)).
Proof.
  intros Hk. destruct e as [uuid request | j | w j repository name token];
    simpl.
  - apply map_Forall_insert_2; [reflexivity | exact Hk].
  - exact Hk.
  - unfold run_analysis.
    destruct (jobs st !! j) as [r|] eqn:Hj; [|exact Hk].
    pose proof (run_on_identity w r repository name token (dirs st))
      as (_ & _ & Hid).
    destruct (run_on w r repository name token (dirs st)) as [r' fs'].
    simpl in *. apply map_Forall_insert_2; [|exact Hk].
    rewrite Hid. exact (Hk j r Hj).
Qed.

End JobsMore.



(** With a removal that raises, the directory stays and the job is
    completed all the same. *)
Example stuck_cleanup_run :
  let r := Jobs.run_on Scenarios.stuck_cleanup Examples.fresh_job
                       "octo/demo" "httpclient" None ∅ in
  fst r = Scenarios.finished_record /\
  "/tmp/gradle_analysis/repo_octo_demo_1b9d6bcd" ∈ snd r.
Proof.
  split; [vm_compute; reflexivity|].
  vm_compute. reflexivity.
Qed.

(** X6.  A job that has reached [completed] or [failed] stays in one of
    these two states through every later poll and background task, as
    long as no new job is submitted under its identifier. *)
Theorem X6_terminal_status_stays_terminal
        (st : Jobs.state) (es : list Jobs.event) (job_id : string) :
  Vocab.terminal (Jobs.jobs st) job_id ->
  Forall (Vocab.not_submit job_id) es ->
  Vocab.terminal (Jobs.jobs (Jobs.run_events st es)) job_id.
Proof.
  intros Hterm Hes. revert st Hterm.
  induction Hes as [|e es He _ IH]; intros st Hterm; simpl; [exact Hterm|].
  apply IH, JobsMore.step_terminal; assumption.
Qed.

(** X7.  An identifier under which nothing was submitted is never
    found: polls and background tasks create no job. *)
Theorem X7_unsubmitted_job_is_not_found
        (st : Jobs.state) (es : list Jobs.event) (job_id : string) :
  Jobs.jobs st !! job_id = None ->
  Forall (Vocab.not_submit job_id) es ->
  Jobs.get_analysis_status (Jobs.jobs (Jobs.run_events st es)) job_id
  = Jobs.HTTPException 404 "Job not found".
Proof.
  intros Hnone Hes. unfold Jobs.get_analysis_status.
  assert (Hstill : Jobs.jobs (Jobs.run_events st es) !! job_id = None).
  { revert st Hnone.
    induction Hes as [|e es He _ IH]; intros st Hnone; simpl; [exact Hnone|].
    apply IH, JobsMore.step_absent; assumption. }
  rewrite Hstill. reflexivity.
Qed.

(** X8.  Starting from the empty store, every record is stored under
    its own [job_id], whatever requests and background tasks follow. *)
Theorem X8_records_stored_under_their_job_id
        (fs : scratch) (es : list Jobs.event) :
  map_Forall (fun id r => AnalysisResult.job_id r = id)
             (Jobs.jobs (Jobs.run_events (Jobs.mkState ∅ fs) es)).
Proof.
  assert (Hempty : map_Forall (fun id r => AnalysisResult.job_id r = id)
                              (Jobs.jobs (Jobs.mkState ∅ fs))).
  { apply map_Forall_empty. }
  revert Hempty. generalize (Jobs.mkState ∅ fs) as st.
  induction es as [|e es IH]; intros st Hst; simpl; [exact Hst|].
  apply IH, JobsMore.step_keyed, Hst.
Qed.

(** X9.  The repository, the target name and the identifier of a job
    are never rewritten: after any polls and background tasks (and
    submissions under other identifiers) the record shows the values it
    was created with. *)
Theorem X9_job_identity_is_kept
        (st : Jobs.state) (es : list Jobs.event) (job_id : string)
        (r : AnalysisResult.t) :
  Jobs.jobs st !! job_id = Some r ->
  Forall (Vocab.not_submit job_id) es ->
  exists r',
    Jobs.jobs (Jobs.run_events st es) !! job_id = Some r' /\
    AnalysisResult.repository r' = AnalysisResult.repository r /\
    AnalysisResult.dependency_name r' = AnalysisResult.dependency_name r /\
    AnalysisResult.job_id r' = AnalysisResult.job_id r.
Proof.
  intros Hr Hes. revert st r Hr.
  induction Hes as [|e es He _ IH]; intros st r Hr; simpl.
  - exists r. auto.
  - destruct (JobsMore.step_lookup st e job_id He)
      as [Heq | (w & repository & name & token & r0 & Hr0 & Heq)].
    + apply IH. rewrite Heq. exact Hr.
    + destruct (IH _ _ Heq) as (r' & Hr' & H1 & H2 & H3).
      assert (r0 = r) as -> by congruence.
      pose proof (JobsMore.run_on_identity w r repository name token
                                           (Jobs.dirs st)) as (I1 & I2 & I3).
      exists r'. split; [exact Hr'|]. repeat split; congruence.
Qed.

Lemma later_not_submit :
  Forall (Vocab.not_submit Scenarios.uuid) Scenarios.later.
Proof.
  repeat constructor. simpl. intros H. discriminate H.
Qed.

(** X6 at a concrete run: the finished job, then the later traffic. *)
Lemma X6_terminal_status_stays_terminal_witness :
  Vocab.terminal (Jobs.jobs Scenarios.finished) Scenarios.uuid /\
  Vocab.terminal
    (Jobs.jobs (Jobs.run_events Scenarios.finished Scenarios.later))
    Scenarios.uuid.
Proof.
  assert (Hterm : Vocab.terminal (Jobs.jobs Scenarios.finished) Scenarios.uuid).
  { exists Scenarios.finished_record.
    split; [vm_compute; reflexivity | left; reflexivity]. }
  split; [exact Hterm|].
  apply (X6_terminal_status_stays_terminal _ _ _ Hterm later_not_submit).
Defined.

(** X7 at a concrete run: the identifier of the finished job was never
    submitted to a service that only saw the later traffic. *)
Lemma X7_unsubmitted_job_is_not_found_witness :
  Jobs.jobs (Jobs.mkState ∅ ∅) !! Scenarios.uuid = None /\
  Jobs.get_analysis_status
    (Jobs.jobs (Jobs.run_events (Jobs.mkState ∅ ∅) Scenarios.later))
    Scenarios.uuid
  = Jobs.HTTPException 404 "Job not found".
Proof.
  split; [apply lookup_empty|].
  apply (X7_unsubmitted_job_is_not_found
           (Jobs.mkState ∅ ∅) Scenarios.later Scenarios.uuid
           (lookup_empty _) later_not_submit).
Defined.

(** X9 at a concrete run: the finished job, then the later traffic. *)
Lemma X9_job_identity_is_kept_witness :
  Jobs.jobs Scenarios.finished !! Scenarios.uuid
  = Some Scenarios.finished_record /\
  exists r',
    Jobs.jobs (Jobs.run_events Scenarios.finished Scenarios.later)
      !! Scenarios.uuid = Some r' /\
    AnalysisResult.repository r' = "octo/demo".
Proof.
  assert (Hr : Jobs.jobs Scenarios.finished !! Scenarios.uuid
               = Some Scenarios.finished_record).
  { vm_compute. reflexivity. }
  split; [exact Hr|].
  destruct (X9_job_identity_is_kept _ _ _ _ Hr later_not_submit)
    as (r' & Hr' & Hrepo & _).
  exists r'. split; [exact Hr' | exact Hrepo].
Defined.

(** ** The analysis without a working build tool, and its result *)

Module AnalyzerMore.

Import Analyzer Spec Vocab.

Lemma all_failed_no_tree_matches (w : world) (repo_dir name : string)
      (configs : list string) :
  Forall (fun c => failed (invocation w repo_dir c)) configs ->
  tree_matches w repo_dir name configs = [].
Proof.
  rewrite AnalyzerFacts.tree_flat.
  induction 1 as [|c configs Hc _ IH]; simpl; [reflexivity|].
  rewrite (AnalyzerFacts.failed_contributes_nothing w repo_dir name c Hc).
  exact IH.
Qed.

Lemma pairs_NoDup (L : list DependencyMatch) :
  NoDup (map Merger.key_of L) ->
  NoDup (map (fun r => (file_path r, current_version r)) L).
Proof.
  intros Hnd.
  apply (NoDup_fmap_1 (fun p : string * string => fst p +:+ "_" +:+ snd p)).
  change (map (fun r => (file_path r, current_version r)) L)
    with ((fun r => (file_path r, current_version r)) <$> L).
  rewrite <- list_fmap_compose. exact Hnd.
Qed.

Lemma readable_flat (w : world) (name repo_dir : string)
      (files : list string) :
  flat_map (file_matches w name repo_dir) (readable w files)
  = flat_map (file_matches w name repo_dir) files.
Proof.
  unfold readable.
  induction files as [|f files IH]; simpl; [reflexivity|].
  destruct (read_text w f) as [content|] eqn:Hread; simpl.
  - rewrite IH. reflexivity.
  - assert (file_matches w name repo_dir f = []) as ->.
    { unfold file_matches. rewrite Hread. reflexivity. }
    exact IH.
Qed.

End AnalyzerMore.

(** X10.  When the invocation of the build tool fails for every
    configuration (for instance because neither the wrapper nor a
    system [gradle] exists), the analysis still answers: its result is
    the merged static scan of the descriptor files. *)
Theorem X10_analysis_without_build_tool
        (w : world) (repo_dir : string) (files : list string)
        (name : string) :
  Forall (fun c => Spec.failed (Spec.invocation w repo_dir c))
         Analyzer.configurations ->
  Analyzer.analyze_gradle_dependencies w repo_dir files name
  = Merger.merge_duplicate_matches
      (Analyzer.analyze_gradle_files_directly w files name repo_dir).
Proof.
  intros Hfail. unfold Analyzer.analyze_gradle_dependencies.
  rewrite (AnalyzerMore.all_failed_no_tree_matches w repo_dir name _ Hfail).
  reflexivity.
Qed.

(** X10 at a concrete input: no build tool is installed and two
    descriptor files declare versions. *)
Lemma X10_analysis_without_build_tool_witness :
  Forall (fun c => Spec.failed (Spec.invocation Examples.two_files "/r" c))
         Analyzer.configurations /\
  Analyzer.analyze_gradle_dependencies
    Examples.two_files "/r" ["/r/a.gradle"; "/r/a.gradle_b.gradle"] "dep"
  = Merger.merge_duplicate_matches
      (Analyzer.analyze_gradle_files_directly
         Examples.two_files ["/r/a.gradle"; "/r/a.gradle_b.gradle"] "dep" "/r").
Proof.
  assert (Hfail : Forall (fun c => Spec.failed
                                     (Spec.invocation Examples.two_files "/r" c))
                         Analyzer.configurations).
  { repeat constructor. }
  split; [exact Hfail|].
  apply (X10_analysis_without_build_tool _ _ _ _ Hfail).
Defined.

(** X11.  The result of an analysis never holds two records with the
    same file path and the same version. *)
Theorem X11_analysis_result_has_distinct_pairs
        (w : world) (repo_dir : string) (files : list string)
        (name : string) :
  NoDup (map (fun r => (file_path r, current_version r))
             (Analyzer.analyze_gradle_dependencies w repo_dir files name)).
Proof.
  unfold Analyzer.analyze_gradle_dependencies.
  apply AnalyzerMore.pairs_NoDup, MergerMore.merged_keys_NoDup.
Qed.

(** X12.  A descriptor file that cannot be read (missing, unreadable,
    not UTF-8) is skipped: the static scan gives the records of the
    readable files, in file order, as if the other files were not in
    the list. *)
Theorem X12_unreadable_files_are_skipped
        (w : world) (files : list string) (name repo_dir : string) :
  Analyzer.analyze_gradle_files_directly w files name repo_dir
  = Analyzer.analyze_gradle_files_directly
      w (Vocab.readable w files) name repo_dir.
Proof.
  rewrite !AnalyzerFacts.static_flat.
  symmetry. apply AnalyzerMore.readable_flat.
Qed.

(** ** Where the records of the two scanners come from *)

Module Provenance.

Import Spec Vocab.

(** *** Static declaration scanner *)

Lemma pattern_matches_cite (rel name : string) (n : nat) (line : string)
      (p : Re.regex) :
  Forall (fun m => file_path m = rel /\ line_context m = context_of n line /\
                   applies line p = true)
         (StaticScanner.pattern_matches rel name n line p).
Proof.
  unfold StaticScanner.pattern_matches, applies.
  destruct (Re.search true p line) as [caps|]; [|constructor].
  destruct caps as [|c1 [|c2 [|c3 [|c4 caps]]]];
    repeat constructor.
Qed.

Lemma line_matches_cite (rel name : string) (n : nat) (line : string) :
  Forall (cites rel name n line) (StaticScanner.line_matches rel name n line).
Proof.
  rewrite StaticScannerFacts.line_matches_flat. unfold cites.
  induction (StaticScanner.version_patterns name) as [|p ps IH]; simpl;
    [constructor|].
  apply Forall_app. split.
  - eapply Forall_impl; [apply pattern_matches_cite|].
    intros m (Hf & Hc & Hp). repeat split; try assumption.
    apply Exists_cons_hd. exact Hp.
  - eapply Forall_impl; [exact IH|].
    intros m (Hf & Hc & Hp). repeat split; try assumption.
    apply Exists_cons_tl. exact Hp.
Qed.

Lemma scan_lines_cite (rel name : string) (lines : list string) :
  forall start,
    Forall (fun m => exists i line,
                lines !! i = Some line /\ cites rel name (start + i) line m)
           (StaticScanner.scan_lines rel name start lines).
Proof.
  induction lines as [|line lines IH]; intros start; simpl; [constructor|].
  apply Forall_app. split.
  - eapply Forall_impl; [apply line_matches_cite|].
    intros m Hm. exists 0, line. rewrite Nat.add_0_r. split; [reflexivity|].
    exact Hm.
  - eapply Forall_impl; [apply (IH (S start))|].
    intros m (i & l & Hl & Hm). exists (S i), l. split; [exact Hl|].
    rewrite Nat.add_succ_r. exact Hm.
Qed.

(** *** Tree parser *)

Lemma parse_line_app (name config rd : string) (acc : list DependencyMatch)
      (line : string) :
  TreeParser.parse_line name config rd [] acc line
  = acc ++ TreeParser.parse_line name config rd [] [] line.
Proof.
  unfold TreeParser.parse_line.
  destruct (_ || _); [rewrite app_nil_r; reflexivity|].
  destruct (Py.contains _ _); [|rewrite app_nil_r; reflexivity].
  destruct (TreeParser.extract_dependency_info_from_line _ _ _ _ _);
    [reflexivity | rewrite app_nil_r; reflexivity].
Qed.

Lemma parse_fold (name config rd : string) (lines : list string) :
  forall acc,
    fold_left (TreeParser.parse_line name config rd []) lines acc
    = acc ++ flat_map (TreeParser.parse_line name config rd [] []) lines.
Proof.
  induction lines as [|line lines IH]; intros acc; simpl.
  - rewrite app_nil_r. reflexivity.
  - rewrite IH, parse_line_app, app_assoc. reflexivity.
Qed.

Lemma parse_flat (out name config rd : string) :
  TreeParser.parse_dependency_tree out name config rd
  = flat_map (TreeParser.parse_line name config rd [] [])
             (Py.split "010" out).
Proof. unfold TreeParser.parse_dependency_tree. apply parse_fold. Qed.

Lemma parse_line_records (name config rd line : string) :
  length (TreeParser.parse_line name config rd [] [] line) <= 1 /\
  Forall (from_line name config line)
         (TreeParser.parse_line name config rd [] [] line).
Proof.
  unfold TreeParser.parse_line.
  destruct (String.eqb (Py.strip line) EmptyString) eqn:Eblank; simpl;
    [split; [lia | constructor]|].
  destruct (Py.startswith "----" line) eqn:Esep; simpl;
    [split; [lia | constructor]|].
  destruct (Py.contains (Py.lower name) (Py.lower line)) eqn:Ein;
    [|split; [simpl; lia | constructor]].
  destruct (TreeParser.extract_dependency_info_from_line line name config [] rd)
    as [m|] eqn:Hm; [|split; [simpl; lia | constructor]].
  split; [simpl; lia|]. constructor; [|constructor].
  apply TreeParserFacts.extract_shape in Hm as (g & a & v & _ & ->).
  unfold from_line. simpl.
  repeat split; try assumption.
  apply String.eqb_neq. exact Eblank.
Qed.

End Provenance.

(** X13.  Every record of the static scan cites a line of a readable
    descriptor file of the list: its file path is the relative path of
    that file, its line context is [Line n: ] followed by the trimmed
    line, where [n] counts the lines of the file from 1, and some
    pattern of the list matches that line. *)
Theorem X13_static_records_cite_their_line
        (w : world) (files : list string) (name repo_dir : string) :
  Forall (fun m => exists f content i line,
              f ∈ files /\
              read_text w f = Some content /\
              Py.split "010" content !! i = Some line /\
              Vocab.cites (relpath w f repo_dir) name (S i) line m)
         (Analyzer.analyze_gradle_files_directly w files name repo_dir).
Proof.
  rewrite AnalyzerFacts.static_flat.
  induction files as [|f files IH]; simpl; [constructor|].
  apply Forall_app. split.
  - unfold Spec.file_matches.
    destruct (read_text w f) as [content|] eqn:Hread; [|constructor].
    eapply Forall_impl; [apply (Provenance.scan_lines_cite _ _ _ 1)|].
    intros m (i & line & Hline & Hm).
    exists f, content, i, line.
    split; [apply list_elem_of_here|]. auto.
  - eapply Forall_impl; [exact IH|].
    intros m (f' & content & i & line & Hf & Hrest).
    exists f', content, i, line.
    split; [apply list_elem_of_further, Hf | exact Hrest].
Qed.

(** X14.  The tree parser returns at most one record per line of the
    tool's output, and every record comes from a line that is not
    blank, does not start with four dashes and contains the target name
    up to case; the record is filed under [gradle_tree_] followed by
    the configuration and its line context is the trimmed line. *)
Theorem X14_tree_records_come_from_lines
        (tree_output name config repo_dir : string) :
  let ms := TreeParser.parse_dependency_tree tree_output name config repo_dir in
  length ms <= length (Py.split "010" tree_output) /\
  Forall (fun m => exists line,
              line ∈ Py.split "010" tree_output /\
              Vocab.from_line name config line m)
         ms.
Proof.
  intros ms. unfold ms. rewrite Provenance.parse_flat.
  induction (Py.split "010" tree_output) as [|line lines [IHlen IH]]; simpl.
  - split; [lia | constructor].
  - destruct (Provenance.parse_line_records name config repo_dir line)
      as [Hlen Hrec].
    split; [rewrite length_app; lia|].
    apply Forall_app. split.
    + eapply Forall_impl; [exact Hrec|].
      intros m Hm. exists line. split; [apply list_elem_of_here | exact Hm].
    + eapply Forall_impl; [exact IH|].
      intros m (l & Hl & Hm). exists l.
      split; [apply list_elem_of_further, Hl | exact Hm].
Qed.

(** ** What the groups of a match can contain *)

Module CaptureFacts.

Import Re Spec Vocab.

Lemma all_chars_app (P : ascii -> bool) (s1 s2 : string) :
  all_chars P (s1 +:+ s2) = all_chars P s1 && all_chars P s2.
Proof.
  induction s1 as [|c s1 IH]; [reflexivity|].
  change (String c s1 +:+ s2) with (String c (s1 +:+ s2)). simpl.
  rewrite IH, andb_assoc. reflexivity.
Qed.

Lemma all_chars_impl (P Q : ascii -> bool) (s : string) :
  (forall c, P c = true -> Q c = true) ->
  all_chars P s = true -> all_chars Q s = true.
Proof.
  intros HPQ. induction s as [|c s IH]; simpl; [reflexivity|].
  rewrite !andb_true_iff. intros [Hc Hs]. auto.
Qed.

Lemma all_chars_substring (P : ascii -> bool) (s : string) : forall n,
  all_chars P s = true -> all_chars P (String.substring 0 n s) = true.
Proof.
  induction s as [|c s IH]; intros [|n]; simpl; try reflexivity.
  rewrite !andb_true_iff. intros [Hc Hs]. auto.
Qed.

Lemma length_append (s1 s2 : string) :
  String.length (s1 +:+ s2) = String.length s1 + String.length s2.
Proof.
  induction s1 as [|c s1 IH]; [reflexivity|].
  change (String c s1 +:+ s2) with (String c (s1 +:+ s2)). simpl.
  rewrite IH. reflexivity.
Qed.

Lemma substring_prefix (s1 s2 : string) :
  String.substring 0 (String.length s1) (s1 +:+ s2) = s1.
Proof.
  induction s1 as [|c s1 IH].
  - destruct s2; reflexivity.
  - change (String c s1 +:+ s2) with (String c (s1 +:+ s2)). simpl.
    rewrite IH. reflexivity.
Qed.

Lemma consumed_app (pre rest : string) : consumed (pre +:+ rest) rest = pre.
Proof.
  unfold consumed. rewrite length_append.
  replace (String.length pre + String.length rest - String.length rest)
    with (String.length pre) by lia.
  apply substring_prefix.
Qed.

(** *** Characters of the searched text *)

Section Chars.

Variable P : ascii -> bool.

Lemma star_chars {R : Type} (p : ascii -> bool) (k : string -> option R)
      (res : R) : forall s,
  all_chars P s = true -> star p s k = Some res ->
  exists s', all_chars P s' = true /\ k s' = Some res.
Proof.
  induction s as [|c s IH]; simpl; intros HP H.
  { exists EmptyString. auto. }
  apply andb_true_iff in HP as [Hc Hs].
  assert (Hhere : all_chars P (String c s) = true)
    by (simpl; rewrite Hc, Hs; reflexivity).
  destruct (p c); [|exists (String c s); auto].
  destruct (star p s k) eqn:Hstar; [|exists (String c s); auto].
  injection H as ->. apply IH; [exact Hs | reflexivity].
Qed.

Lemma run_chars (icase : bool) (r : regex) :
  forall s caps k res,
    all_chars P s = true ->
    run icase r s caps k = Some res ->
    exists s' new,
      all_chars P s' = true /\
      Forall (fun g => all_chars P g = true) new /\
      k s' (caps ++ new) = Some res.
Proof.
  induction r as [|a|a|a|r1 IH1 r2 IH2|r1 IH1]; intros s caps k res HP; simpl.
  - intros H. exists s, []. rewrite app_nil_r. auto.
  - destruct s as [|c s']; [discriminate|].
    destruct (atom_ok icase a c); [|discriminate].
    simpl in HP. apply andb_true_iff in HP as [_ HP].
    intros H. exists s', []. rewrite app_nil_r. auto.
  - intros H. apply star_chars in H as (s' & HP' & H); [|exact HP].
    exists s', []. rewrite app_nil_r. auto.
  - destruct s as [|c s']; [discriminate|].
    destruct (atom_ok icase a c); [|discriminate].
    simpl in HP. apply andb_true_iff in HP as [_ HP].
    intros H. apply star_chars in H as (s'' & HP' & H); [|exact HP].
    exists s'', []. rewrite app_nil_r. auto.
  - intros H. apply IH1 in H as (s1 & new1 & HP1 & Hnew1 & H); [|exact HP].
    apply IH2 in H as (s2 & new2 & HP2 & Hnew2 & H); [|exact HP1].
    exists s2, (new1 ++ new2). rewrite app_assoc.
    split; [exact HP2|]. split; [apply Forall_app; auto | exact H].
  - intros H. apply IH1 in H as (s1 & new1 & HP1 & Hnew1 & H); [|exact HP].
    exists s1, (new1 ++ [consumed s s1]). rewrite app_assoc.
    split; [exact HP1|]. split; [|exact H].
    apply Forall_app. split; [exact Hnew1|].
    constructor; [|constructor].
    apply all_chars_substring, HP.
Qed.

Lemma search_chars (icase : bool) (r : regex) (caps : list string) :
  forall s,
    all_chars P s = true -> search icase r s = Some caps ->
    Forall (fun g => all_chars P g = true) caps.
Proof.
  assert (Hat : forall s, all_chars P s = true ->
                          match_at icase r s = Some caps ->
                          Forall (fun g => all_chars P g = true) caps).
  { intros s HP H. unfold match_at in H.
    apply run_chars in H as (s' & new & _ & Hnew & [= <-]); assumption. }
  induction s as [|c s IH]; simpl; intros HP.
  - destruct (match_at icase r EmptyString) eqn:Hm; [|discriminate].
    intros [= <-]. eapply Hat; [|exact Hm]. reflexivity.
  - destruct (match_at icase r (String c s)) eqn:Hm.
    + intros [= <-]. eapply Hat; [|exact Hm]. exact HP.
    + apply andb_true_iff in HP as [_ HP]. auto.
Qed.

End Chars.

Lemma delete_runs_plain (line : string) :
  all_chars plain_char (delete_runs TreeParser.tree_chars line) = true.
Proof.
  induction line as [|c line IH]; [reflexivity|].
  change (delete_runs TreeParser.tree_chars (String c line))
    with (if atom_ok false TreeParser.tree_chars c
          then delete_runs TreeParser.tree_chars line
          else String c (delete_runs TreeParser.tree_chars line)).
  destruct (atom_ok false TreeParser.tree_chars c) eqn:E; [exact IH|].
  change (plain_char c
          && all_chars plain_char (delete_runs TreeParser.tree_chars line)
          = true).
  unfold plain_char at 1. rewrite E, IH. reflexivity.
Qed.

(** *** The text of the last group *)

Lemma star_prefix {R : Type} (p : ascii -> bool) (k : string -> option R)
      (res : R) : forall s,
  star p s k = Some res ->
  exists pre s', s = pre +:+ s' /\ all_chars p pre = true /\ k s' = Some res.
Proof.
  induction s as [|c s IH]; simpl; intros H.
  - exists EmptyString, EmptyString. auto.
  - destruct (p c) eqn:Hc.
    + destruct (star p s k) eqn:Hstar.
      * injection H as ->.
        destruct (IH eq_refl) as (pre & s' & -> & Hpre & Hk).
        exists (String c pre), s'. simpl. rewrite Hc, Hpre. auto.
      * exists EmptyString, (String c s). auto.
    + exists EmptyString, (String c s). auto.
Qed.

Lemma run_group_plus (icase : bool) (a : atom) (s : string)
      (caps : list string) (k : string -> list string -> option (list string))
      (res : list string) :
  run icase (Group (Plus a)) s caps k = Some res ->
  exists pre s',
    pre <> EmptyString /\ all_chars (atom_ok icase a) pre = true /\
    k s' (caps ++ [pre]) = Some res.
Proof.
  simpl. destruct s as [|c s1]; [discriminate|].
  destruct (atom_ok icase a c) eqn:Hc; [|discriminate].
  intros H. apply star_prefix in H as (pre & s' & -> & Hpre & H).
  exists (String c pre), s'.
  split; [discriminate|]. split; [simpl; rewrite Hc, Hpre; reflexivity|].
  change (String c (pre +:+ s')) with (String c pre +:+ s') in H.
  rewrite consumed_app in H. exact H.
Qed.

Lemma run_extends (icase : bool) (r : regex) :
  forall s caps k res,
    run icase r s caps k = Some res ->
    exists s' new, length new = groups r /\ k s' (caps ++ new) = Some res.
Proof.
  induction r as [|a|a|a|r1 IH1 r2 IH2|r1 IH1]; intros s caps k res; simpl.
  - intros H. exists s, []. rewrite app_nil_r. auto.
  - destruct s as [|c s']; [discriminate|].
    destruct (atom_ok icase a c); [|discriminate].
    intros H. exists s', []. rewrite app_nil_r. auto.
  - intros H. apply ReFacts.star_continues in H as [s' H].
    exists s', []. rewrite app_nil_r. auto.
  - destruct s as [|c s']; [discriminate|].
    destruct (atom_ok icase a c); [|discriminate].
    intros H. apply ReFacts.star_continues in H as [s'' H].
    exists s'', []. rewrite app_nil_r. auto.
  - intros H. apply IH1 in H as (s1 & new1 & Hlen1 & H).
    apply IH2 in H as (s2 & new2 & Hlen2 & H).
    exists s2, (new1 ++ new2). rewrite app_assoc, length_app.
    split; [lia | exact H].
  - intros H. apply IH1 in H as (s1 & new1 & Hlen1 & H).
    exists s1, (new1 ++ [consumed s s1]). rewrite app_assoc, length_app.
    split; [simpl; lia | exact H].
Qed.

Lemma seq_groups (rs : list regex) :
  Forall (fun r => groups r = 0) rs -> groups (seq rs) = 0.
Proof.
  induction 1 as [|r rs Hr _ IH]; simpl; [reflexivity|].
  rewrite Hr, IH. reflexivity.
Qed.

(** A pattern that ends in a group [(a+)] followed by group-free
    parts: the last group of a match is a non-empty run of characters
    of [a]. *)
Lemma seq_last_group (icase : bool) (a : atom) (back : list regex) :
  Forall (fun r => groups r = 0) back ->
  forall (front : list regex) s caps res,
    run icase (seq (front ++ Group (Plus a) :: back)) s caps
        (fun _ c => Some c) = Some res ->
    exists before pre,
      res = before ++ [pre] /\
      pre <> EmptyString /\ all_chars (atom_ok icase a) pre = true.
Proof.
  intros Hback front. induction front as [|r front IH]; intros s caps res.
  - change (seq ([] ++ Group (Plus a) :: back))
      with (Seq (Group (Plus a)) (seq back)).
    change (run icase (Seq (Group (Plus a)) (seq back)) s caps
                (fun _ c => Some c))
      with (run icase (Group (Plus a)) s caps
                (fun s' caps' => run icase (seq back) s' caps'
                                     (fun _ c => Some c))).
    intros H. apply run_group_plus in H as (pre & s' & Hne & Hpre & H).
    apply run_extends in H as (s'' & new & Hlen & [= <-]).
    rewrite (seq_groups back Hback) in Hlen.
    destruct new; [|discriminate]. rewrite app_nil_r.
    exists caps, pre. auto.
  - change (seq ((r :: front) ++ Group (Plus a) :: back))
      with (Seq r (seq (front ++ Group (Plus a) :: back))).
    change (run icase (Seq r (seq (front ++ Group (Plus a) :: back))) s caps
                (fun _ c => Some c))
      with (run icase r s caps
                (fun s' caps' =>
                   run icase (seq (front ++ Group (Plus a) :: back)) s' caps'
                       (fun _ c => Some c))).
    intros H. apply run_extends in H as (s' & new & _ & H).
    apply IH in H. exact H.
Qed.

Lemma search_match_at (icase : bool) (r : regex) (caps : list string) :
  forall s, search icase r s = Some caps ->
            exists s', match_at icase r s' = Some caps.
Proof.
  induction s as [|c s IH]; simpl.
  - destruct (match_at icase r EmptyString) eqn:Hm; [|discriminate].
    intros [= <-]. eauto.
  - destruct (match_at icase r (String c s)) eqn:Hm; [|exact IH].
    intros [= <-]. eauto.
Qed.

End CaptureFacts.

(** ** The shape of the reported versions and names *)

Module Shapes.

Import Re Spec Vocab CaptureFacts.

Lemma seq_step (icase : bool) (r1 r2 : regex) (s : string)
      (caps : list string) (k : string -> list string -> option (list string))
      (res : list string) :
  run icase (Seq r1 r2) s caps k = Some res ->
  exists s' new,
    length new = groups r1 /\ run icase r2 s' (caps ++ new) k = Some res.
Proof. intros H. exact (run_extends icase r1 _ _ _ _ H). Qed.

Lemma not_colon_class (c : ascii) :
  atom_ok false (Class true [IChar ":"%char; ISpace]) c = true ->
  no_colon c = true.
Proof.
  intros H. unfold no_colon.
  destruct (Ascii.eqb c ":") eqn:E; [|reflexivity].
  apply Ascii.eqb_eq in E. subst c. vm_compute in H. discriminate H.
Qed.

Lemma not_quote_class (c : ascii) :
  atom_ok true StaticScanner.not_quote c = true -> no_quote c = true.
Proof.
  intros H. unfold no_quote.
  destruct (Ascii.eqb c "'") eqn:E1.
  { apply Ascii.eqb_eq in E1. subst c. vm_compute in H. discriminate H. }
  destruct (Ascii.eqb c "034") eqn:E2; [|reflexivity].
  apply Ascii.eqb_eq in E2. subst c. vm_compute in H. discriminate H.
Qed.

Lemma not_space_quote_class (c : ascii) :
  atom_ok true (Class true [ISpace; IChar "'"; IChar "034"]%char) c = true ->
  no_quote c = true.
Proof.
  intros H. unfold no_quote.
  destruct (Ascii.eqb c "'") eqn:E1.
  { apply Ascii.eqb_eq in E1. subst c. vm_compute in H. discriminate H. }
  destruct (Ascii.eqb c "034") eqn:E2; [|reflexivity].
  apply Ascii.eqb_eq in E2. subst c. vm_compute in H. discriminate H.
Qed.

(** The version group of the tree pattern. *)
Lemma dep_pattern_version (s : string) (g a v : string) :
  search false TreeParser.dep_pattern s = Some [g; a; v] ->
  v <> EmptyString /\ all_chars no_colon v = true.
Proof.
  intros H. apply search_match_at in H as [s' H].
  unfold match_at, TreeParser.dep_pattern in H.
  apply (seq_last_group false _ [] (Forall_nil_2 _)
           [Group (Plus TreeParser.not_colon); Atom (Lit ":");
            Group (Plus TreeParser.not_colon); Atom (Lit ":")])
    in H as (before & pre & Heq & Hne & Hpre).
  change [g; a; v] with ([g; a] ++ [v]) in Heq.
  apply app_inj_tail in Heq as [_ ->].
  split; [exact Hne|].
  eapply all_chars_impl; [apply not_colon_class | exact Hpre].
Qed.

(** The last group of each declaration pattern. *)
Lemma assignment_version (s : string) (caps res : list string) :
  run true StaticScanner.assignment s caps (fun _ c => Some c) = Some res ->
  exists before pre,
    res = before ++ [pre] /\ pre <> EmptyString /\
    all_chars no_quote pre = true.
Proof.
  intros H. unfold StaticScanner.assignment in H.
  apply (seq_last_group true _ [Atom StaticScanner.quote])
    with (front := [Star Space; Atom (Lit "="); Star Space;
                    Atom StaticScanner.quote])
    in H as (before & pre & Heq & Hne & Hpre).
  - exists before, pre. split; [exact Heq|]. split; [exact Hne|].
    eapply all_chars_impl; [apply not_quote_class | exact Hpre].
  - repeat constructor.
Qed.

Lemma version_patterns_last (name : string) (line : string) :
  Forall (fun p => forall caps,
              search true p line = Some caps ->
              exists before pre,
                caps = before ++ [pre] /\ pre <> EmptyString /\
                all_chars no_quote pre = true)
         (StaticScanner.version_patterns name).
Proof.
  unfold StaticScanner.version_patterns.
  repeat (apply Forall_cons_2); [..|apply Forall_nil_2]; intros caps H;
    apply search_match_at in H as [s' H]; unfold match_at in H.
  - apply seq_step in H as (s1 & new1 & _ & H).
    apply seq_step in H as (s2 & new2 & _ & H).
    apply assignment_version in H. exact H.
  - apply seq_step in H as (s1 & new1 & _ & H).
    apply assignment_version in H. exact H.
  - apply (seq_last_group true _ [] (Forall_nil_2 _)
             [Group (Seq (escape name) (Star TreeParser.not_colon));
              Atom (Lit ":"); Group (Star TreeParser.not_colon);
              Atom (Lit ":")])
      in H as (before & pre & Heq & Hne & Hpre).
    exists before, pre. split; [exact Heq|]. split; [exact Hne|].
    eapply all_chars_impl; [apply not_space_quote_class | exact Hpre].
Qed.

Lemma pattern_matches_version (rel name : string) (n : nat) (line : string)
      (p : regex) :
  (forall caps, search true p line = Some caps ->
                exists before pre,
                  caps = before ++ [pre] /\ pre <> EmptyString /\
                  all_chars no_quote pre = true) ->
  Forall quoted_text (StaticScanner.pattern_matches rel name n line p).
Proof.
  intros Hlast. unfold StaticScanner.pattern_matches.
  destruct (search true p line) as [caps|] eqn:Hs; [|constructor].
  destruct (Hlast caps eq_refl) as (before & pre & Heq & Hne & Hpre).
  destruct caps as [|c1 [|c2 [|c3 [|c4 caps]]]].
  - apply Forall_nil_2.
  - change [c1] with ([] ++ [c1]) in Heq.
    apply app_inj_tail in Heq as [_ ->].
    apply Forall_cons_2; [|apply Forall_nil_2]. split; assumption.
  - apply Forall_nil_2.
  - change [c1; c2; c3] with ([c1; c2] ++ [c3]) in Heq.
    apply app_inj_tail in Heq as [_ ->].
    apply Forall_cons_2; [|apply Forall_nil_2]. split; assumption.
  - apply Forall_nil_2.
Qed.

Lemma line_matches_version (rel name : string) (n : nat) (line : string) :
  Forall quoted_text (StaticScanner.line_matches rel name n line).
Proof.
  rewrite StaticScannerFacts.line_matches_flat.
  pose proof (version_patterns_last name line) as Hlast.
  induction Hlast as [|p ps Hp _ IH]; simpl; [constructor|].
  apply Forall_app. split; [|exact IH].
  apply pattern_matches_version, Hp.
Qed.

Lemma scan_lines_version (rel name : string) (lines : list string) :
  forall n, Forall quoted_text (StaticScanner.scan_lines rel name n lines).
Proof.
  induction lines as [|line lines IH]; intros n; simpl; [constructor|].
  apply Forall_app. split; [apply line_matches_version | apply IH].
Qed.

End Shapes.

Module TreeShapes.

Import Spec Vocab CaptureFacts.

Lemma extract_compact (line name config rd : string) (m : DependencyMatch) :
  TreeParser.extract_dependency_info_from_line line name config [] rd = Some m ->
  compact m.
Proof.
  intros Hm. apply TreeParserFacts.extract_shape in Hm
    as (g & a & v & Hsearch & ->).
  pose proof (search_chars plain_char false _ _ _
                (delete_runs_plain line) Hsearch) as Hplain.
  apply Forall_cons in Hplain as [Hg Hplain].
  apply Forall_cons in Hplain as [Ha Hplain].
  apply Forall_cons in Hplain as [Hv _].
  destruct (Shapes.dep_pattern_version _ _ _ _ Hsearch) as [Hne Hcolon].
  unfold compact. simpl. rewrite andb_false_r.
  split; [exact Hne|]. split; [exact Hcolon|]. split; [exact Hv|].
  apply Forall_cons_2; [|apply Forall_nil_2].
  rewrite !all_chars_app, Hg, Ha. reflexivity.
Qed.

Lemma parse_line_compact (name config rd line : string) :
  Forall compact (TreeParser.parse_line name config rd [] [] line).
Proof.
  unfold TreeParser.parse_line.
  destruct (_ || _); [apply Forall_nil_2|].
  destruct (Py.contains _ _); [|apply Forall_nil_2].
  destruct (TreeParser.extract_dependency_info_from_line line name config [] rd)
    as [m|] eqn:Hm; [|apply Forall_nil_2].
  apply Forall_cons_2; [|apply Forall_nil_2].
  eapply extract_compact, Hm.
Qed.

End TreeShapes.

(** X15.  In every record of the tree parser the version is not empty
    and holds no colon, and neither the version nor the name in the
    dependency path holds white space or one of the characters
    [+ - \ |]: the parser deletes them from the line before it reads
    group, artifact and version, so a hyphen of an artifact name is not
    reported. *)
Theorem X15_tree_records_are_compact
        (tree_output name config repo_dir : string) :
  Forall Vocab.compact
         (TreeParser.parse_dependency_tree tree_output name config repo_dir).
Proof.
  rewrite Provenance.parse_flat.
  induction (Py.split "010" tree_output) as [|line lines IH]; simpl.
  - apply Forall_nil_2.
  - apply Forall_app. split; [apply TreeShapes.parse_line_compact | exact IH].
Qed.

(** X16.  In every record of the static scan the version is not empty
    and holds neither a single nor a double quote. *)
Theorem X16_static_versions_hold_no_quote
        (w : world) (files : list string) (name repo_dir : string) :
  Forall Vocab.quoted_text
         (Analyzer.analyze_gradle_files_directly w files name repo_dir).
Proof.
  rewrite AnalyzerFacts.static_flat.
  induction files as [|f files IH]; simpl; [apply Forall_nil_2|].
  apply Forall_app. split; [|exact IH].
  unfold Spec.file_matches. destruct (read_text w f); [|apply Forall_nil_2].
  apply Shapes.scan_lines_version.
Qed.

(** ** Archive fetcher: success, and where the scratch directory lies *)

Module FetcherMore.

Import Fetcher Spec Vocab.

Lemma replace_no_slash (s : string) :
  all_chars no_slash (Py.replace "/" "_" s) = true.
Proof.
  induction s as [|c s IH]; simpl; [reflexivity|].
  rewrite IH, andb_true_r.
  destruct (Ascii.eqb c "/") eqn:E; [reflexivity|].
  unfold no_slash. rewrite E. reflexivity.
Qed.

Lemma join_work_dir (name : string) :
  Path.join Jobs.work_dir ("repo_" +:+ name)
  = "/tmp/gradle_analysis/" +:+ "repo_" +:+ name.
Proof. reflexivity. Qed.

(** A returned directory means a 200 answer, a good archive and a good
    hoist. *)
Lemma return_is_success (w : world) (wd repository : string)
      (token : option string) (fs fs' : scratch) (d : string) :
  clone_repository w wd repository token fs = (fs', Return d) ->
  answered_200 w repository (headers_of token) /\
  zip_extract w = Extracted /\ hoist w = Hoisted /\
  d = repo_dir_of w wd repository /\ fs' = {[d]} ∪ fs.
Proof.
  unfold clone_repository, clone_try.
  destruct (requests_get w (zip_url repository "main") (headers_of token))
    as [c1|e1] eqn:Hmain; [|discriminate].
  destruct (c1 =? 200)%Z eqn:Ec1; simpl.
  - apply Z.eqb_eq in Ec1. subst c1. simpl.
    destruct (zip_extract w) as [|e2|e2]; [|discriminate..].
    destruct (hoist w) as [|e3]; [|discriminate].
    intros [= <- <-]. split; [left; exact Hmain|]. auto.
  - apply Z.eqb_neq in Ec1.
    destruct (requests_get w (zip_url repository "master") (headers_of token))
      as [c2|e2] eqn:Hmaster; [|discriminate].
    destruct (c2 =? 200)%Z eqn:Ec2; [|discriminate].
    apply Z.eqb_eq in Ec2. subst c2.
    destruct (zip_extract w) as [|e3|e3]; [|discriminate..].
    destruct (hoist w) as [|e4]; [|discriminate].
    intros [= <- <-]. split; [right; exists c1; auto|]. auto.
Qed.

End FetcherMore.

(** X17.  The fetch returns a directory exactly when one of the two
    archive requests was answered with status 200 ([master] being asked
    only after another answer for [main]), the archive was extracted
    and its nested folder hoisted; the directory is then the scratch
    directory of the fetch, and it exists. *)
Theorem X17_fetch_succeeds_exactly_when
        (w : world) (wd repository : string) (token : option string)
        (fs fs' : scratch) (d : string) :
  Fetcher.clone_repository w wd repository token fs = (fs', Return d) <->
  Spec.answered_200 w repository (Fetcher.headers_of token) /\
  zip_extract w = Extracted /\ hoist w = Hoisted /\
  d = Fetcher.repo_dir_of w wd repository /\ fs' = {[d]} ∪ fs.
Proof.
  split; [apply FetcherMore.return_is_success|].
  intros (Hans & Hzip & Hhoist & -> & ->).
  unfold Fetcher.clone_repository.
  rewrite (FetcherFacts.clone_try_answered w wd repository token fs Hans).
  rewrite Hzip, Hhoist. reflexivity.
Qed.

(** X18.  Whatever the repository string, the scratch directory of a
    fetch is a direct child of the work directory: the path separators
    of the repository string are replaced, so the last component holds
    none (the first eight characters of a UUID hold none either). *)
Theorem X18_scratch_directory_is_a_child_of_work_dir
        (w : world) (repository : string) :
  Vocab.all_chars Vocab.no_slash (String.substring 0 8 (uuid4 w)) = true ->
  exists component,
    Fetcher.repo_dir_of w Jobs.work_dir repository
    = "/tmp/gradle_analysis/" +:+ component /\
    Vocab.all_chars Vocab.no_slash component = true.
Proof.
  intros Huuid. unfold Fetcher.repo_dir_of.
  rewrite FetcherMore.join_work_dir.
  eexists. split; [reflexivity|].
  rewrite !CaptureFacts.all_chars_app, FetcherMore.replace_no_slash, Huuid.
  reflexivity.
Qed.

(** X18 at a concrete input: a repository string that tries to climb
    out of the work directory. *)
Lemma X18_scratch_directory_is_a_child_of_work_dir_witness :
  Vocab.all_chars Vocab.no_slash
    (String.substring 0 8 (uuid4 Examples.quiet)) = true /\
  exists component,
    Fetcher.repo_dir_of Examples.quiet Jobs.work_dir "../../etc/cron.d"
    = "/tmp/gradle_analysis/" +:+ component /\
    Vocab.all_chars Vocab.no_slash component = true.
Proof.
  split; [reflexivity|].
  apply (X18_scratch_directory_is_a_child_of_work_dir
           Examples.quiet "../../etc/cron.d" eq_refl).
Defined.

(** ** File scanner *)

Module FileScannerFacts.

Import FileScanner Vocab.

(** Induction on trees: a directory's property may use its children's. *)
Lemma entry_induction (P : entry -> Prop) :
  (forall name, P (File name)) ->
  (forall name children, Forall P children -> P (Dir name children)) ->
  forall e, P e.
Proof.
  intros Hfile Hdir. fix IH 1. intros [name | name children].
  - apply Hfile.
  - apply Hdir. induction children as [|c children IHc].
    + apply Forall_nil_2.
    + apply Forall_cons_2; [apply IH | exact IHc].
Qed.

Lemma files_of_In (es : list entry) (name : string) :
  In name (files_of es) <-> In (File name) es.
Proof.
  unfold files_of. rewrite in_flat_map. split.
  - intros ([n | d cs] & Hin & Hname); simpl in Hname; [|contradiction].
    destruct Hname as [-> | []]. exact Hin.
  - intros Hin. exists (File name). split; [exact Hin | left; reflexivity].
Qed.

Lemma found_in_In (root : string) (es : list entry) (p : string) :
  In p (found_in root es) <->
  exists name, In (File name) es /\ is_gradle_file name = true /\
               p = Path.join root name.
Proof.
  unfold found_in. rewrite in_map_iff. split.
  - intros (name & <- & Hin). apply filter_In in Hin as [Hin Hg].
    apply files_of_In in Hin. eauto.
  - intros (name & Hin & Hg & ->). exists name. split; [reflexivity|].
    apply filter_In. split; [apply files_of_In, Hin | exact Hg].
Qed.

(** What the walk appends at a directory and below it, given the same
    about the walk below each of its entries. *)
Lemma level_In (es : list entry) :
  Forall (fun e => forall root p,
              In p (visit root e) <->
              exists d cs, e = Dir d cs /\ keep_dir d = true /\
                           reached (Path.join root d) cs p) es ->
  forall root p,
    In p (found_in root es ++ flat_map (visit root) es) <-> reached root es p.
Proof.
  intros Hes root p. rewrite in_app_iff, found_in_In, in_flat_map. split.
  - intros [(name & Hin & Hg & ->) | (e & Hin & Hp)].
    + apply reached_here; assumption.
    + rewrite List.Forall_forall in Hes.
      apply (Hes e Hin) in Hp as (d & cs & -> & Hkeep & Hreach).
      eapply reached_below; eassumption.
  - intros Hreach.
    destruct Hreach as [root es name Hin Hg | root es d cs p Hin Hkeep Hreach].
    + left. eauto.
    + right. exists (Dir d cs). split; [exact Hin|].
      rewrite List.Forall_forall in Hes. apply (Hes _ Hin). eauto.
Qed.

Lemma visit_In (e : entry) :
  forall root p,
    In p (visit root e) <->
    exists d cs, e = Dir d cs /\ keep_dir d = true /\
                 reached (Path.join root d) cs p.
Proof.
  induction e as [name | name children IH] using entry_induction;
    intros root p; simpl.
  - split; [contradiction|]. intros (d & cs & Heq & _). discriminate Heq.
  - destruct (keep_dir name) eqn:Hkeep.
    + rewrite (level_In children IH). split.
      * intros Hreach. exists name, children. auto.
      * intros (d & cs & [= <- <-] & _ & Hreach). exact Hreach.
    + split; [contradiction|].
      intros (d & cs & [= <- <-] & Hk & _). congruence.
Qed.

End FileScannerFacts.

(** X19.  The file scanner reports exactly the descriptor files that lie
    in the repository root or below a chain of directories none of
    which is named [build] or starts with a dot: a path is in the
    result if and only if it is reached in this way (so hidden and
    build directories are never entered, while the root itself and
    hidden files are not filtered). *)
Theorem X19_scanner_reports_the_reached_descriptors
        (repo_dir : string) (tree : list FileScanner.entry) (p : string) :
  p ∈ FileScanner.identify_gradle_files repo_dir tree <->
  Vocab.reached repo_dir tree p.
Proof.
  rewrite list_elem_of_In. unfold FileScanner.identify_gradle_files.
  apply FileScannerFacts.level_In.
  apply Forall_forall. intros e _. apply FileScannerFacts.visit_In.
Qed.

(** A walk over a small tree: the root's files first, then the kept
    directories in order; [build] and [.gradle] are not entered. *)
Example scanner_on_a_small_tree :
  FileScanner.identify_gradle_files "/r"
    [FileScanner.Dir ".gradle" [FileScanner.File "cache.gradle"];
     FileScanner.Dir "app"
       [FileScanner.File "build.gradle.kts";
        FileScanner.Dir "build" [FileScanner.File "generated.gradle"];
        FileScanner.File "Main.java"];
     FileScanner.File "settings.gradle";
     FileScanner.File "gradle.properties";
     FileScanner.File "README.md"]
  = ["/r/settings.gradle"; "/r/gradle.properties";
     "/r/app/build.gradle.kts"].
Proof. vm_compute. reflexivity. Qed.

(** ** Hoisting the nested folder *)

Module HoistFacts.

Import FileScanner Hoist.

Lemma has_name_app (n : string) (es1 es2 : list entry) :
  has_name n (es1 ++ es2) = has_name n es1 || has_name n es2.
Proof. unfold has_name. apply existsb_app. Qed.

Lemma has_name_names (n : string) (es : list entry) :
  has_name n es = false <-> ~ In n (names es).
Proof.
  unfold has_name, names. induction es as [|e es IH]; simpl; [tauto|].
  rewrite orb_false_iff, IH, String.eqb_neq. tauto.
Qed.

(** Without a name clash every item arrives in [repo_dir]. *)
Lemma move_all_ok (rd : string) (items : list entry) : forall top,
  List.NoDup (names items) ->
  List.Forall (fun i => has_name (name_of i) top = false) items ->
  move_all rd items top = Return (top ++ items).
Proof.
  induction items as [|item items IH]; intros top Hnd Hfree; simpl.
  - rewrite app_nil_r. reflexivity.
  - apply List.NoDup_cons_iff in Hnd as [Hitem Hnd].
    apply List.Forall_cons_iff in Hfree as [Hhere Hfree].
    rewrite Hhere, IH, <- app_assoc; [reflexivity | exact Hnd |].
    rewrite List.Forall_forall in *. intros i Hi.
    rewrite has_name_app, (Hfree i Hi). simpl.
    rewrite orb_false_r. apply String.eqb_neq. intros Heq.
    apply Hitem. rewrite Heq. apply in_map, Hi.
Qed.

(** A name clash with an entry of [repo_dir] makes a move raise. *)
Lemma move_all_clash (rd : string) (items : list entry) : forall top,
  List.Exists (fun i => has_name (name_of i) top = true) items ->
  exists e, move_all rd items top = Raise e.
Proof.
  induction items as [|item items IH]; intros top Hclash; simpl.
  - inversion Hclash.
  - destruct (has_name (name_of item) top) eqn:Hhere; [eauto|].
    apply IH. apply List.Exists_cons in Hclash as [Hclash | Hclash];
      [congruence|].
    eapply List.Exists_impl; [|exact Hclash].
    intros i Hi. simpl in Hi. rewrite has_name_app, Hi. reflexivity.
Qed.

Lemma remove_first_dir_app (top items : list entry) (d : string)
      (children : list entry) :
  first_dir top = Some (d, children) ->
  remove_first_dir (top ++ items) = remove_first_dir top ++ items.
Proof.
  induction top as [|[n | n cs] top IH]; simpl; intros H.
  - discriminate.
  - rewrite (IH H). reflexivity.
  - reflexivity.
Qed.

End HoistFacts.

(** X20.  Hoisting the archive's nested folder.  Let the listing of the
    scratch directory have a first directory with children of pairwise
    distinct names.  When no child has the name of an entry of the
    scratch directory, the children are moved up and the folder is
    removed: the new listing is the old one without that folder,
    followed by the children.  When some child has the name of such an
    entry (for instance the name of the folder itself), the step
    raises.  A listing without a directory is left as it is. *)
Theorem X20_hoist_moves_the_children_up
        (repo_dir : string) (top : list FileScanner.entry) :
  (Hoist.first_dir top = None ->
   Hoist.hoist_listing repo_dir top = Return top) /\
  forall d children,
    Hoist.first_dir top = Some (d, children) ->
    List.NoDup (Hoist.names children) ->
    (List.Forall (fun c => Hoist.has_name (Hoist.name_of c) top = false)
                 children ->
     Hoist.hoist_listing repo_dir top
     = Return (Hoist.remove_first_dir top ++ children)) /\
    (List.Exists (fun c => Hoist.has_name (Hoist.name_of c) top = true)
                 children ->
     exists e, Hoist.hoist_listing repo_dir top = Raise e).
Proof.
  unfold Hoist.hoist_listing. split.
  - intros ->. reflexivity.
  - intros d children Hfirst Hnd. rewrite Hfirst. split.
    + intros Hfree.
      rewrite (HoistFacts.move_all_ok repo_dir children top Hnd Hfree).
      rewrite (HoistFacts.remove_first_dir_app top children d children Hfirst).
      reflexivity.
    + intros Hclash.
      destruct (HoistFacts.move_all_clash repo_dir children top Hclash)
        as [e He].
      rewrite He. eauto.
Qed.

(** X20 at a concrete input: the layout of a hosting archive, one
    top-level folder named after owner, repository and commit. *)
Lemma X20_hoist_moves_the_children_up_witness :
  let children := [FileScanner.File "build.gradle";
                   FileScanner.Dir "app" [FileScanner.File "build.gradle"]] in
  let top := [FileScanner.Dir "octo-demo-1a2b3c" children] in
  Hoist.first_dir top = Some ("octo-demo-1a2b3c", children) /\
  List.NoDup (Hoist.names children) /\
  Hoist.hoist_listing "/tmp/gradle_analysis/repo_octo_demo_1b9d6bcd" top
  = Return children.
Proof.
  intros children top.
  assert (Hnd : List.NoDup (Hoist.names children)).
  { repeat constructor; simpl; intuition discriminate. }
  split; [reflexivity|]. split; [exact Hnd|].
  destruct (X20_hoist_moves_the_children_up
              "/tmp/gradle_analysis/repo_octo_demo_1b9d6bcd" top)
    as [_ Hsome].
  destruct (Hsome "octo-demo-1a2b3c" children eq_refl Hnd) as [Hok _].
  apply Hok. repeat constructor.
Defined.

(** ** The polling client against the service *)

Module ClientFacts.

Import Client.

(** The loop waits through [processing] answers and reports the first
    terminal one. *)
Lemma poll_loop_reports (responses : nat -> Z * string) (n : nat)
      (status : string) :
  (forall k, k < n -> responses k = (200%Z, "processing")) ->
  responses n = (200%Z, status) ->
  status = "completed" \/ status = "failed" ->
  forall remaining attempt,
    attempt <= n -> n - attempt < remaining ->
    poll_loop remaining attempt responses = String.eqb status "completed".
Proof.
  intros Hwait Hdone Hterm.
  induction remaining as [|remaining IH]; intros attempt Hle Hlt; [lia|].
  simpl. destruct (Nat.eq_dec attempt n) as [-> | Hne].
  - rewrite Hdone. simpl.
    destruct Hterm as [-> | ->]; reflexivity.
  - rewrite (Hwait attempt) by lia. simpl. apply IH; lia.
Qed.

(** The loop gives up when every answer it sees is [processing]. *)
Lemma poll_loop_gives_up (responses : nat -> Z * string) :
  forall remaining attempt,
    (forall k, attempt <= k < attempt + remaining ->
               responses k = (200%Z, "processing")) ->
    poll_loop remaining attempt responses = false.
Proof.
  induction remaining as [|remaining IH]; intros attempt Hwait;
    [reflexivity|].
  simpl. rewrite (Hwait attempt) by lia. simpl.
  apply IH. intros k Hk. apply Hwait. lia.
Qed.

End ClientFacts.

(** X21.  The polling client of [test.py] against the service.  A job
    is submitted, the client polls, and the background task of the job
    ends after [n] polls.  When [n] is below the client's thirty
    attempts, the client's verdict is [True] exactly when the fetch
    returned a directory (the job completed) and [False] when the fetch
    raised (the job failed); it never sees a status other than 200.
    When the task ends after thirty polls or more, the client gives up
    with [False]. *)
Theorem X21_client_verdict
        (w : world) (uuid : string) (request : AnalysisRequest.t)
        (st : Jobs.state) (n : nat) :
  let st1 := Jobs.step st (Jobs.Submit uuid request) in
  let st2 :=
    Jobs.step st1
      (Jobs.Background w uuid
         (AnalysisRequest.repository request)
         (AnalysisRequest.dependency_name request)
         (AnalysisRequest.github_token request)) in
  let responses k :=
    Client.seen
      (Jobs.get_analysis_status
         (Jobs.jobs (if k <? n then st1 else st2)) uuid) in
  (forall k, fst (responses k) = 200%Z) /\
  (n < Client.max_attempts ->
   Client.wait_for_job responses
   = match snd (Fetcher.clone_repository
                  w Jobs.work_dir (AnalysisRequest.repository request)
                  (AnalysisRequest.github_token request) (Jobs.dirs st)) with
     | Return _ => true
     | Raise _ => false
     end) /\
  (Client.max_attempts <= n -> Client.wait_for_job responses = false).
Proof.
  intros st1 st2 responses.
  set (fresh := AnalysisResult.mk
                  (AnalysisRequest.repository request)
                  (AnalysisRequest.dependency_name request)
                  uuid "processing" [] [] None None).
  assert (H1 : Jobs.jobs st1 !! uuid = Some fresh).
  { unfold st1. simpl. apply lookup_insert_eq. }
  set (ran := Jobs.run_on w fresh
                (AnalysisRequest.repository request)
                (AnalysisRequest.dependency_name request)
                (AnalysisRequest.github_token request) (Jobs.dirs st1)).
  assert (H2 : Jobs.jobs st2 !! uuid = Some (fst ran)).
  { unfold st2. simpl. unfold Jobs.run_analysis. rewrite H1.
    fold ran. destruct ran as [r' fs']. simpl. apply lookup_insert_eq. }
  assert (Hearly : forall k, k < n -> responses k = (200%Z, "processing")).
  { intros k Hk. unfold responses. apply Nat.ltb_lt in Hk. rewrite Hk.
    unfold Jobs.get_analysis_status. rewrite H1. reflexivity. }
  assert (Hlate : forall k, n <= k ->
            responses k = (200%Z, AnalysisResult.status (fst ran))).
  { intros k Hk. unfold responses. apply Nat.ltb_ge in Hk. rewrite Hk.
    unfold Jobs.get_analysis_status. rewrite H2. reflexivity. }
  split; [|split].
  - intros k. destruct (Nat.lt_ge_cases k n) as [Hk | Hk].
    + rewrite (Hearly k Hk). reflexivity.
    + rewrite (Hlate k Hk). reflexivity.
  - intros Hn. unfold Client.wait_for_job.
    rewrite (ClientFacts.poll_loop_reports
               responses n (AnalysisResult.status (fst ran)) Hearly
               (Hlate n (le_n n)) (JobsFacts.run_on_terminal _ _ _ _ _ _)
               Client.max_attempts 0) by lia.
    unfold ran, Jobs.run_on. unfold st1. simpl.
    destruct (Fetcher.clone_repository _ _ _ _ _) as [fs1 [d|e]]; simpl;
      [|reflexivity].
    destruct (length _ =? 0); reflexivity.
  - intros Hn. unfold Client.wait_for_job.
    apply ClientFacts.poll_loop_gives_up.
    intros k Hk. apply Hearly. unfold Client.max_attempts in *. lia.
Qed.

(** X22.  A repository that is fetched and holds no descriptor file:
    the job submitted for it ends [completed] with empty
    [gradle_files_found], empty [matches] and the error text [No Gradle
    files found in repository]; the build tool is not run. *)
Theorem X22_repository_without_descriptors
        (w : world) (uuid : string) (request : AnalysisRequest.t)
        (st : Jobs.state) (repo_dir : string) :
  snd (Fetcher.clone_repository
         w Jobs.work_dir (AnalysisRequest.repository request)
         (AnalysisRequest.github_token request) (Jobs.dirs st))
  = Return repo_dir ->
  gradle_files_in w repo_dir = [] ->
  Jobs.get_analysis_status
    (Jobs.jobs
       (Jobs.run_events st
          [Jobs.Submit uuid request;
           Jobs.Background w uuid
             (AnalysisRequest.repository request)
             (AnalysisRequest.dependency_name request)
             (AnalysisRequest.github_token request)]))
    uuid
  = Jobs.Ok200
      (AnalysisResult.mk
         (AnalysisRequest.repository request)
         (AnalysisRequest.dependency_name request)
         uuid "completed" [] []
         (Some "No Gradle files found in repository") None).
Proof.
  intros Hclone Hfiles. simpl.
  unfold Jobs.run_analysis. simpl. rewrite lookup_insert_eq.
  unfold Jobs.run_on.
  destruct (Fetcher.clone_repository _ _ _ _ _) as [fs1 [d|e]];
    simpl in *; [|discriminate].
  injection Hclone as ->. rewrite Hfiles. simpl.
  unfold Jobs.get_analysis_status. rewrite lookup_insert_eq. reflexivity.
Qed.

(** X22 at a concrete input. *)
Lemma X22_repository_without_descriptors_witness :
  snd (Fetcher.clone_repository
         Examples.no_descriptors Jobs.work_dir "octo/demo" None ∅)
  = Return "/tmp/gradle_analysis/repo_octo_demo_1b9d6bcd" /\
  Jobs.get_analysis_status (Jobs.jobs Scenarios.finished) Scenarios.uuid
  = Jobs.Ok200 Scenarios.finished_record.
Proof.
  assert (Hclone : snd (Fetcher.clone_repository
                          Examples.no_descriptors Jobs.work_dir
                          "octo/demo" None ∅)
                   = Return "/tmp/gradle_analysis/repo_octo_demo_1b9d6bcd").
  { vm_compute. reflexivity. }
  split; [exact Hclone|].
  apply (X22_repository_without_descriptors
           Examples.no_descriptors Scenarios.uuid Examples.request
           (Jobs.mkState ∅ ∅) _ Hclone eq_refl).
Defined.

(** X23.  What one extraction does with the path it is given.  For a
    line it accepts, [extract_dependency_info_from_line] returns a
    record without parent version; when the line is indented and the
    given [current_path] is not empty, the parent is the last name of
    that path and the dependency path is that path followed by the
    record's own name; otherwise there is no parent and the dependency
    path is the own name alone. *)
Theorem X23_extraction_uses_the_given_path
        (line name config : string) (current_path : list string)
        (repo_dir : string) (m : DependencyMatch) :
  TreeParser.extract_dependency_info_from_line
    line name config current_path repo_dir = Some m ->
  parent_version m = None /\
  (0 < Spec.indent_level line -> current_path <> [] ->
   parent_dependency m = last current_path /\
   exists full_name, dependency_path m = current_path ++ [full_name]) /\
  (Spec.indent_level line = 0 \/ current_path = [] ->
   parent_dependency m = None /\
   exists full_name, dependency_path m = [full_name]).
Proof.
  intros Hm. split; [|split].
  - apply TreeParserFacts.extract_shape in Hm as (g & a & v & _ & ->).
    reflexivity.
  - intros Hind Hcp.
    exact (TreeParserFacts.extract_transitive _ _ _ _ _ _ Hm Hind Hcp).
  - intros Hroot.
    destruct (TreeParserFacts.extract_root _ _ _ _ _ _ Hm Hroot)
      as (Hp & _ & Hpath).
    split; assumption.
Qed.

(** X23 at a concrete input: an indented line, extracted with the path
    of its parent. *)
Lemma X23_extraction_uses_the_given_path_witness :
  TreeParser.extract_dependency_info_from_line
    "     \--- org.apache.httpcomponents:httpclient:4.5.13"
    "httpclient" "compileClasspath" ["org.example:app"] "/r"
  = Some Examples.below_parent /\
  parent_dependency Examples.below_parent = Some "org.example:app".
Proof.
  assert (Hm : TreeParser.extract_dependency_info_from_line
                 "     \--- org.apache.httpcomponents:httpclient:4.5.13"
                 "httpclient" "compileClasspath" ["org.example:app"] "/r"
               = Some Examples.below_parent).
  { vm_compute. reflexivity. }
  split; [exact Hm|].
  destruct (X23_extraction_uses_the_given_path _ _ _ _ _ _ Hm)
    as (_ & Htrans & _).
  destruct Htrans as [Hparent _].
  - vm_compute. lia.
  - discriminate.
  - exact Hparent.
Defined.
